(** * SADGP: the governance proxy pipeline, embedded and verified

    A shallow embedding of the Python sources under [proxy/]:
    [dlp_engine.py], [fingerprinter.py], [policy_engine.py], [redactor.py],
    [governance_logger.py] and [main.py].  Each Python function is a Rocq
    function of the same name; the collaborators the sources call but do not
    define (the entity recogniser, [hash], [hashlib], [time], the file
    system) are Section variables.

    Conventions of the embedding:
    - a [str] is a [string], one [ascii] per character, which is exact for
      ASCII text; [str.lower], [\d], [\s], [\w] and the case folding of
      IGNORECASE are their ASCII versions;
    - a [float] is the rational number it denotes; an arithmetic operation
      is the exact operation followed by rounding to the nearest number with
      a 53-bit significand, ties to even ([Float.round53]), as IEEE-754
      binary64 prescribes; the exponent range is left out (no value of the
      pipeline comes near it) and so are infinities and NaN;
    - a raised exception is [None] where a function can raise one
      exception only, and the [Raise] outcome of the [result] type where
      the file system is involved. *)

From Stdlib Require Import ZArith QArith Qround Qpower Qminmax Lia Lqa.
From Stdlib Require Import Bool List String Ascii DecimalString Sorted.
From Stdlib Require Import Floats.PrimFloat Floats.SpecFloat Floats.FloatOps.
Import ListNotations.

Local Open Scope string_scope.
Local Open Scope list_scope.

(* ================================================================== *)
(** * Python built-ins used by the sources *)
(* ================================================================== *)

Module Py.

(** The empty [str]. *)
Definition empty : string := EmptyString.

Definition newline : ascii := "010"%char.

Definition len (s : string) : Z := Z.of_nat (String.length s).

Definition is_upper (c : ascii) : bool :=
  let n := nat_of_ascii c in (65 <=? n)%nat && (n <=? 90)%nat.

Definition is_lower (c : ascii) : bool :=
  let n := nat_of_ascii c in (97 <=? n)%nat && (n <=? 122)%nat.

Definition is_alpha (c : ascii) : bool := is_upper c || is_lower c.

Definition is_digit (c : ascii) : bool :=
  let n := nat_of_ascii c in (48 <=? n)%nat && (n <=? 57)%nat.

(** [\w]: letters, digits and the underscore. *)
Definition is_word (c : ascii) : bool :=
  is_alpha c || is_digit c || Ascii.eqb c "_".

(** [\s]: tab, newline, vertical tab, form feed, carriage return, the four
    separators 0x1c..0x1f and the space. *)
Definition is_space (c : ascii) : bool :=
  let n := nat_of_ascii c in
  ((9 <=? n)%nat && (n <=? 13)%nat) ||
  ((28 <=? n)%nat && (n <=? 31)%nat) || (n =? 32)%nat.

Definition lower_char (c : ascii) : ascii :=
  if is_upper c then ascii_of_nat (nat_of_ascii c + 32) else c.

(** [s.lower()] *)
Fixpoint lower (s : string) : string :=
  match s with
  | EmptyString => EmptyString
  | String c s' => String (lower_char c) (lower s')
  end.

(** [s.startswith(p)] *)
Fixpoint startswith (p s : string) : bool :=
  match p, s with
  | EmptyString, _ => true
  | String a p', String b s' => Ascii.eqb a b && startswith p' s'
  | String _ _, EmptyString => false
  end.

(** [s.find(sub)] counted from [pos]: the first index at which [sub]
    occurs, [-1] when it does not. *)
Fixpoint find_from (pos : Z) (sub s : string) : Z :=
  if startswith sub s then pos
  else match s with
       | EmptyString => (-1)%Z
       | String _ s' => find_from (pos + 1) sub s'
       end.

Definition find (s sub : string) : Z := find_from 0 sub s.

(** [sub in s] *)
Definition contains (sub s : string) : bool := (0 <=? find s sub)%Z.

(** A slice bound as Python normalises it: a negative bound counts from
    the end, and the result is clamped to [0, len]. *)
Definition slice_index (n i : Z) : Z :=
  if (i <? 0)%Z then Z.max 0 (i + n) else Z.min i n.

(** [s[:i]] *)
Definition slice_to (s : string) (i : Z) : string :=
  substring 0 (Z.to_nat (slice_index (len s) i)) s.

(** [s[i:]] *)
Definition slice_from (s : string) (i : Z) : string :=
  let k := Z.to_nat (slice_index (len s) i) in
  substring k (String.length s - k) s.

(** [s[i:j]] for bounds already inside the string. *)
Definition slice (s : string) (i j : nat) : string := substring i (j - i) s.

(** [x in l] for a list of strings. *)
Definition mem (x : string) (l : list string) : bool :=
  existsb (String.eqb x) l.

(** [l.index(x)]: the first position of [x]; Python raises [ValueError]
    when there is none, here [None]. *)
Fixpoint index (x : string) (l : list string) : option nat :=
  match l with
  | [] => None
  | y :: l' => if String.eqb x y then Some 0%nat else option_map S (index x l')
  end.

(** [sorted(l, key=key, reverse=True)]: a stable sort, so elements with
    equal keys keep the order they had in [l]. *)
Section Sorted.
Context {A K : Type} (ltb : K -> K -> bool) (key : A -> K).

Fixpoint insert_desc (x : A) (l : list A) : list A :=
  match l with
  | [] => [x]
  | y :: l' => if ltb (key x) (key y) then y :: insert_desc x l' else x :: l
  end.

Definition sorted_desc (l : list A) : list A :=
  fold_right insert_desc [] l.
End Sorted.

(** [str(n)] for a natural number. *)
Definition str_of_N (n : N) : string := NilZero.string_of_uint (N.to_uint n).

(** [l[i:]] for a list: the bound is normalised as for a string. *)
Definition list_slice_from {A : Type} (l : list A) (i : Z) : list A :=
  skipn (Z.to_nat (slice_index (Z.of_nat (List.length l)) i)) l.

(** A [dict] from strings to integers, in insertion order.
    [d.get(k, default)] and [d[k] = v]: an assignment to a key the dict
    holds keeps the place of the key, a new key goes last. *)
Fixpoint dict_get (d : list (string * Z)) (k : string) (default : Z) : Z :=
  match d with
  | [] => default
  | (k', v) :: d' => if String.eqb k k' then v else dict_get d' k default
  end.

Fixpoint dict_set (d : list (string * Z)) (k : string) (v : Z)
    : list (string * Z) :=
  match d with
  | [] => [(k, v)]
  | (k', v') :: d' =>
      if String.eqb k k' then (k', v) :: d' else (k', v') :: dict_set d' k v
  end.

End Py.

(* ================================================================== *)
(** * Python floats *)
(* ================================================================== *)

Module Float.
Local Open Scope Q_scope.

(** Rounding of a rational to the nearest integer, ties to even. *)
Definition round_half_even (q : Q) : Z :=
  let f := Qfloor q in
  match Qcompare (q - inject_Z f) (1 # 2) with
  | Lt => f
  | Gt => (f + 1)%Z
  | Eq => if Z.even f then f else (f + 1)%Z
  end.

(** The binary exponent of a positive rational:
    [2 ^ binade q <= q < 2 ^ (binade q + 1)]. *)
Definition binade (q : Q) : Z :=
  let e0 := (Z.log2 (Qnum q) - Z.log2 (Zpos (Qden q)))%Z in
  if Qle_bool (2 ^ e0) q then e0 else (e0 - 1)%Z.

(** Rounding of a positive rational to 53 significant bits. *)
Definition round53_pos (q : Q) : Q :=
  let s := (binade q - 52)%Z in
  inject_Z (round_half_even (q / 2 ^ s)) * 2 ^ s.

(** Rounding to binary64: nearest, ties to even. *)
Definition round53 (q : Q) : Q :=
  match Qnum q with
  | Z0 => 0
  | Zpos _ => Qred (round53_pos q)
  | Zneg _ => Qred (- round53_pos (- q))
  end.

(** A decimal literal of the source denotes the nearest float. *)
Definition lit (q : Q) : Q := round53 q.

(** [float(n)], also implicit when an [int] meets a [float]. *)
Definition of_int (n : Z) : Q := round53 (inject_Z n).

Definition add (x y : Q) : Q := round53 (x + y).
Definition mul (x y : Q) : Q := round53 (x * y).
Definition div (x y : Q) : Q := round53 (x / y).

(** [x >= y] and [x < y] *)
Definition geb (x y : Q) : bool := Qle_bool y x.
Definition ltb (x y : Q) : bool := negb (Qle_bool y x).

(** [min(a, b)] keeps [a] unless [b < a]; [max(a, b)] keeps [a] unless
    [b > a]. *)
Definition min (a b : Q) : Q := if ltb b a then b else a.
Definition max (a b : Q) : Q := if ltb a b then b else a.

(** [round(x, 2)]: the exact value of [x] is rounded to two decimals,
    ties to even, and the decimal result is read back as a float. *)
Definition round2 (x : Q) : Q :=
  round53 (inject_Z (round_half_even (x * 100)) / 100).

(** The floats among the rationals: the numbers rounding leaves alone. *)
Definition is_float (x : Q) : Prop := round53 x == x.

(** The value of a hardware float, for comparing the model with the
    kernel's binary64 arithmetic. *)
Definition of_prim (f : PrimFloat.float) : option Q :=
  match Prim2SF f with
  | S754_zero _ => Some 0
  | S754_finite s m e =>
      Some (Qred (inject_Z (if s then Zneg m else Zpos m) * 2 ^ e))
  | S754_infinity _ | S754_nan => None
  end.

End Float.

(* ================================================================== *)
(** * The part of Python's [re] the catalogs are written in *)
(* ================================================================== *)

Module Re.

(** A character class, as the predicate it denotes. *)
Definition cls := ascii -> bool.

(** A compiled pattern is a sequence of atoms.  Every quantifier of the
    catalogs applies to one character class, and every group is an
    alternation of literal words. *)
Inductive atom : Type :=
| Bol                                           (* ^ *)
| Eol                                           (* $ *)
| WordB                                         (* \b *)
| Rep (c : cls) (lo : nat) (hi : option nat)    (* c{lo,hi}, greedy *)
| Alt (words : list (list cls)).                (* (w1|w2|...) *)

Definition regex := list atom.

(** Classes. *)
Definition chr (c : ascii) : cls := Ascii.eqb c.
(** A literal under IGNORECASE: the letters A-Z and a-z are folded.  (On
    text outside ASCII Python folds a few more letters, such as the dotless
    i onto i; statements that depend on it are made for ASCII text.) *)
Definition chr_i (c : ascii) : cls :=
  fun x => Ascii.eqb (Py.lower_char c) (Py.lower_char x).
Definition one_of (s : string) : cls :=
  fun x => existsb (Ascii.eqb x) (list_ascii_of_string s).
Definition union (a b : cls) : cls := fun x => a x || b x.
(** [.] without DOTALL: anything but a newline. *)
Definition dot : cls := fun x => negb (Ascii.eqb x Py.newline).

(** Quantifiers. *)
Definition one (c : cls) : atom := Rep c 1 (Some 1%nat).
Definition opt (c : cls) : atom := Rep c 0 (Some 1%nat).
Definition star (c : cls) : atom := Rep c 0 None.
Definition plus (c : cls) : atom := Rep c 1 None.
Definition exactly (n : nat) (c : cls) : atom := Rep c n (Some n).
Definition at_least (n : nat) (c : cls) : atom := Rep c n None.

(** A literal word, case-sensitive or under IGNORECASE. *)
Definition word (s : string) : list cls := map chr (list_ascii_of_string s).
Definition word_i (s : string) : list cls := map chr_i (list_ascii_of_string s).
Definition lit (s : string) : regex := map one (word s).
Definition lit_i (s : string) : regex := map one (word_i s).

(** The number of leading characters of [s] in class [c], at most [hi]. *)
Fixpoint span (c : cls) (hi : option nat) (s : string) : nat :=
  match hi with
  | Some O => O
  | _ =>
      match s with
      | String x s' =>
          if c x then S (span c (option_map Nat.pred hi) s') else O
      | EmptyString => O
      end
  end.

(** Does [s] start with the word [w]?  Then its length. *)
Fixpoint prefix (w : list cls) (s : string) : option nat :=
  match w with
  | [] => Some O
  | c :: w' =>
      match s with
      | String x s' => if c x then option_map S (prefix w' s') else None
      | EmptyString => None
      end
  end.

(** [s] without its first [n] characters, and the character before that
    position ([prev] when [n = 0]). *)
Fixpoint drop (n : nat) (s : string) : string :=
  match n, s with
  | S n', String _ s' => drop n' s'
  | _, _ => s
  end.

Fixpoint before (n : nat) (prev : option ascii) (s : string) : option ascii :=
  match n, s with
  | S n', String x s' => before n' (Some x) s'
  | _, _ => prev
  end.

Definition is_word_opt (c : option ascii) : bool :=
  match c with Some x => Py.is_word x | None => false end.

Definition head (s : string) : option ascii :=
  match s with String x _ => Some x | EmptyString => None end.

(** [$] holds at the end of the text and before a final newline. *)
Definition at_eol (s : string) : bool :=
  match s with
  | EmptyString => true
  | String x EmptyString => Ascii.eqb x Py.newline
  | _ => false
  end.

(** Greedy backtracking: the counts [k], [k-1], ..., [lo] in turn. *)
Fixpoint try_down (f : nat -> option nat) (lo k : nat) : option nat :=
  if (k <? lo)%nat then None
  else match f k with
       | Some r => Some r
       | None => match k with O => None | S k' => try_down f lo k' end
       end.

(** The alternatives of a group in turn. *)
Fixpoint try_words (f : nat -> option nat) (s : string)
    (words : list (list cls)) : option nat :=
  match words with
  | [] => None
  | w :: rest =>
      match match prefix w s with Some n => f n | None => None end with
      | Some r => Some r
      | None => try_words f s rest
      end
  end.

(** [match_here r prev s]: the pattern [r] matched at a position whose
    preceding character is [prev] ([None] at the start of the text) and
    whose remaining text is [s]; the result is the length of the match the
    backtracking matcher finds first. *)
Fixpoint match_here (r : regex) (prev : option ascii) (s : string)
    : option nat :=
  match r with
  | [] => Some O
  | Bol :: r' =>
      match prev with None => match_here r' prev s | Some _ => None end
  | Eol :: r' => if at_eol s then match_here r' prev s else None
  | WordB :: r' =>
      if xorb (is_word_opt prev) (is_word_opt (head s))
      then match_here r' prev s else None
  | Rep c lo hi :: r' =>
      try_down
        (fun k => option_map (Nat.add k)
                    (match_here r' (before k prev s) (drop k s)))
        lo (span c hi s)
  | Alt words :: r' =>
      try_words
        (fun k => option_map (Nat.add k)
                    (match_here r' (before k prev s) (drop k s)))
        s words
  end.

(** [pattern.match(s)]: a match at the start of [s]. *)
Definition matches (r : regex) (s : string) : bool :=
  match match_here r None s with Some _ => true | None => false end.

(** [pattern.search(s)]: a match anywhere in [s], leftmost first. *)
Fixpoint search_from (r : regex) (prev : option ascii) (s : string) : bool :=
  match match_here r prev s with
  | Some _ => true
  | None =>
      match s with
      | EmptyString => false
      | String x s' => search_from r (Some x) s'
      end
  end.

Definition search (r : regex) (s : string) : bool := search_from r None s.

(** [pattern.finditer(s)]: the spans [(start, end)] of the successive
    non-overlapping matches, scanning from the left.  [skip] counts the
    characters still covered by the match found last.  (No pattern of the
    catalogs matches the empty string.) *)
Fixpoint finditer_from (r : regex) (prev : option ascii) (s : string)
    (pos skip : nat) : list (nat * nat) :=
  match skip with
  | S k =>
      match s with
      | EmptyString => []
      | String x s' => finditer_from r (Some x) s' (S pos) k
      end
  | O =>
      match match_here r prev s with
      | Some n =>
          (pos, (pos + n)%nat) ::
          match s with
          | EmptyString => []
          | String x s' => finditer_from r (Some x) s' (S pos) (Nat.pred n)
          end
      | None =>
          match s with
          | EmptyString => []
          | String x s' => finditer_from r (Some x) s' (S pos) O
          end
      end
  end.

Definition finditer (r : regex) (s : string) : list (nat * nat) :=
  finditer_from r None s 0 0.

(** [pattern.findall(s)] for a pattern without groups: the matched texts. *)
Definition findall (r : regex) (s : string) : list string :=
  map (fun span => Py.slice s (fst span) (snd span)) (finditer r s).

End Re.

(* ================================================================== *)
(** * proxy/dlp_engine.py *)
(* ================================================================== *)

Module DLPEngine.
Import Re.

Definition digit : cls := Py.is_digit.
Definition space : cls := Py.is_space.
Definition alpha : cls := Py.is_alpha.
Definition alnum : cls := union Py.is_alpha Py.is_digit.

(** [[A-Z0-9._%+-]] and [[A-Z0-9.-]] under IGNORECASE, [[\s-]], [[=:]],
    the class of the two quote characters, [[A-Za-z0-9-_]]. *)
Definition email_local : cls := union alnum (one_of "._%+-").
Definition email_domain : cls := union alnum (one_of ".-").
Definition space_or_dash : cls := union space (chr "-").
Definition assign : cls := one_of "=:".
Definition quote : cls := union (chr "'") (chr (ascii_of_nat 34)).
Definition token_char : cls := union alnum (one_of "-_").

(** [[A-Z0-9._%+-]+@[A-Z0-9.-]+\.[A-Z]{2,}], IGNORECASE *)
Definition email_re : regex :=
  [plus email_local; one (chr "@"); plus email_domain; one (chr ".");
   at_least 2 alpha].

(** [\b\+?\d{1,2}[\s-]?\(?\d{3}\)?[\s-]?\d{3}[\s-]?\d{4}\b] *)
Definition phone_re : regex :=
  [WordB; opt (chr "+"); Rep digit 1 (Some 2%nat); opt space_or_dash;
   opt (chr "("); exactly 3 digit; opt (chr ")"); opt space_or_dash;
   exactly 3 digit; opt space_or_dash; exactly 4 digit; WordB].

(** [\b\d{4}\s?\d{4}\s?\d{4}\b] *)
Definition medicare_re : regex :=
  [WordB; exactly 4 digit; opt space; exactly 4 digit; opt space;
   exactly 4 digit; WordB].

(** [\b\d{3}\s?\d{3}\s?\d{3}\b] *)
Definition tfn_re : regex :=
  [WordB; exactly 3 digit; opt space; exactly 3 digit; opt space;
   exactly 3 digit; WordB].

(** [(?i)(api|token|secret|key)[=:]\s*Q?[A-Za-z0-9-_]{12,}], where [Q] is
    the class of the single and the double quote *)
Definition api_key_re : regex :=
  [Alt [word_i "api"; word_i "token"; word_i "secret"; word_i "key"];
   one assign; star space; opt quote; at_least 12 token_char].

(** [eyJ[A-Za-z0-9-_]+\.[A-Za-z0-9-_]+\.[A-Za-z0-9-_]+] *)
Definition jwt_re : regex :=
  lit "eyJ" ++
  [plus token_char; one (chr "."); plus token_char; one (chr ".");
   plus token_char].

(** [[A-Za-z0-9\-_]{8,}], the tokens of the entropy scan *)
Definition token_re : regex := [at_least 8 token_char].

(** The two catalogs, in the order the dict literals declare them. *)
Definition PII_REGEXES : list (string * regex) :=
  [("email", email_re); ("phone", phone_re); ("medicare", medicare_re);
   ("tfn", tfn_re)].

Definition SECRET_REGEXES : list (string * regex) :=
  [("api_key", api_key_re); ("jwt", jwt_re)].

(** The entity labels [_scan_spacy] keeps. *)
Definition ENTITY_LABELS : list string :=
  ["PERSON"; "GPE"; "ORG"; "NORP"; "LOC"].

Record SensitiveSegment : Type := mkSegment {
  label : string;
  value : string;
  start : Z;
  end_ : Z
}.

Record DLPResult : Type := mkDLPResult {
  pii_score : Q;
  secret_leakage_score : Q;
  sensitive_segments : list SensitiveSegment;
  raw_prompt : option string
}.

(** An entity of the recogniser: [label_], [text], [start_char],
    [end_char]. *)
Record Entity : Type := mkEntity {
  label_ : string;
  text : string;
  start_char : Z;
  end_char : Z
}.

(** [label in PII_REGEXES], [label in SECRET_REGEXES]: key membership. *)
Definition in_keys (l : string) (d : list (string * regex)) : bool :=
  Py.mem l (map fst d).

Section Engine.

(** The sum [-sum(p * math.log2(p) for p in probs)] over the characters
    of a non-empty token: it rests on [math.log2] and on the iteration
    order of a [set], neither of which the sources fix. *)
Variable entropy_sum : string -> Q.

(** [self.nlp] when [self.enable_spacy] holds and the model loaded:
    the recogniser, giving the entities of a text. *)
Variable nlp : option (string -> list Entity).

Definition _entropy (text : string) : Q :=
  match text with
  | EmptyString => 0%Q
  | _ => entropy_sum text
  end.

(** The segments of one catalog entry. *)
Definition hits_of (text : string) (entry : string * regex)
    : list SensitiveSegment :=
  map (fun span =>
         mkSegment (fst entry) (Py.slice text (fst span) (snd span))
           (Z.of_nat (fst span)) (Z.of_nat (snd span)))
      (finditer (snd entry) text).

Definition _scan_regexes (text : string) : list SensitiveSegment :=
  flat_map (hits_of text) PII_REGEXES ++
  flat_map (hits_of text) SECRET_REGEXES.

Definition _scan_entropy_with (text : string) (threshold : Q)
    : list SensitiveSegment :=
  flat_map
    (fun token =>
       let ent := _entropy token in
       if Float.geb ent threshold && (16 <=? Py.len token)%Z
       then [mkSegment "high_entropy" token (Py.find text token)
               (Py.find text token + Py.len token)]
       else [])
    (findall token_re text).

(** [threshold] defaults to [3.5]. *)
Definition _scan_entropy (text : string) : list SensitiveSegment :=
  _scan_entropy_with text (Float.lit 3.5).

Definition _scan_spacy (text : string) : list SensitiveSegment :=
  match nlp with
  | None => []
  | Some run =>
      flat_map
        (fun ent =>
           if Py.mem (label_ ent) ENTITY_LABELS
           then [mkSegment (label_ ent) (DLPEngine.text ent)
                   (start_char ent) (end_char ent)]
           else [])
        (run text)
  end.

Definition is_pii_hit (h : SensitiveSegment) : bool :=
  in_keys (label h) PII_REGEXES || Py.mem (label h) ENTITY_LABELS.

Definition is_secret_hit (h : SensitiveSegment) : bool :=
  in_keys (label h) SECRET_REGEXES || String.eqb (label h) "high_entropy".

Definition is_high_entropy (h : SensitiveSegment) : bool :=
  String.eqb (label h) "high_entropy".

(** [min(1.0, len(pii_hits) * 0.2)] *)
Definition pii_score_of (pii_hits : list SensitiveSegment) : Q :=
  Float.min 1
    (Float.mul (Float.of_int (Z.of_nat (List.length pii_hits)))
               (Float.lit 0.2)).

(** [min(1.0, len(secret_hits) * 0.25 + (0.3 if any(...) else 0))] *)
Definition secret_score_of (secret_hits : list SensitiveSegment) : Q :=
  Float.min 1
    (Float.add
       (Float.mul (Float.of_int (Z.of_nat (List.length secret_hits)))
                  (Float.lit 0.25))
       (if existsb is_high_entropy secret_hits
        then Float.lit 0.3 else Float.of_int 0)).

Definition analyze (prompt : string) : DLPResult :=
  let regex_hits := _scan_regexes prompt in
  let entropy_hits := _scan_entropy prompt in
  let spacy_hits := _scan_spacy prompt in
  let all_hits := regex_hits ++ entropy_hits ++ spacy_hits in
  let pii_hits := filter is_pii_hit all_hits in
  let secret_hits := filter is_secret_hit all_hits in
  let pii_score := pii_score_of pii_hits in
  let secret_score := secret_score_of secret_hits in
  mkDLPResult (Float.round2 pii_score) (Float.round2 secret_score)
    all_hits (Some prompt).

End Engine.

Definition synthetic_prompt_with_findings : string :=
  "Contact Alice Example at alice@example.com or +1 202-555-0199 with token API_KEY_12345_FAKE.".

End DLPEngine.

(* ================================================================== *)
(** * proxy/fingerprinter.py *)
(* ================================================================== *)

Module Fingerprinter.

Record FingerprintResult : Type := mkFingerprintResult {
  service_name : string;
  model_type : string;
  api_version : string;
  risk_level : string;
  confidence : Q;
  matched_on : list string
}.

Record RequestContext : Type := mkRequestContext {
  host : string;
  path : string;
  method : string;
  headers : list (string * string);
  body : option string;
  tls_ja3 : option string;
  sni : option string
}.

(** One entry of [self.rules]. *)
Record Rule : Type := mkRule {
  rule_service_name : string;
  rule_domains : list Re.regex;
  rule_paths : list Re.regex;
  rule_headers : list string;
  rule_model_type : string;
  rule_api_version : string;
  rule_risk_level : string
}.

(** [re.escape(pattern).replace(r"\*", ".*")], compiled between [^] and
    [$] under IGNORECASE: each [*] of the pattern becomes [.*], every other
    character stands for itself. *)
Definition wildcard_atom (c : ascii) : Re.atom :=
  if Ascii.eqb c "*" then Re.star Re.dot else Re.one (Re.chr_i c).

Definition _wildcard_to_regex (pattern : string) : Re.regex :=
  Re.Bol :: map wildcard_atom (list_ascii_of_string pattern) ++ [Re.Eol].

(** [re.compile(p)] for the path patterns of the catalog, which are made
    of literal characters and of [.*]. *)
Fixpoint compile (p : string) : Re.regex :=
  match p with
  | EmptyString => []
  | String c p' =>
      if Ascii.eqb c "."
      then match p' with
           | String "*" p'' => Re.star Re.dot :: compile p''
           | _ => Re.one Re.dot :: compile p'
           end
      else Re.one (Re.chr c) :: compile p'
  end.

(** The tuples of [catalog]: name, domains, paths, headers, model type,
    API version. *)
Definition catalog
    : list (string * list string * list string * list string * string * string) :=
  [ ("OpenAI", ["api.openai.com"],
     ["/v1/chat/completions"; "/v1/completions"; "/v1/models"],
     ["OpenAI-Organization"], "chat", "v1");
    ("Anthropic", ["api.anthropic.com"; "claude.ai"],
     ["/v1/messages"; "/v1/complete"],
     ["Anthropic-Version"], "chat", "v1");
    ("Google Gemini", ["generativelanguage.googleapis.com"; "gemini.google.com"],
     ["/v1beta/models"; "/v1/models"],
     ["x-goog-api-client"], "multimodal", "v1beta");
    ("Azure OpenAI", ["*.openai.azure.com"],
     ["/openai/deployments/.*/chat/completions"],
     ["api-key"; "x-ms-client-request-id"], "chat", "2023-12-01-preview");
    ("HuggingFace", ["api-inference.huggingface.co"; "huggingface.co"],
     ["/models/"; "/pipeline/"],
     ["X-Requested-With"], "inference", "v1");
    ("Replicate", ["api.replicate.com"],
     ["/v1/predictions"],
     ["Authorization"], "inference", "v1");
    ("Cohere", ["api.cohere.ai"],
     ["/v1/generate"; "/v1/chat"],
     ["Cohere-Version"], "chat", "v1");
    ("Mistral", ["api.mistral.ai"],
     ["/v1/chat/completions"; "/v1/models"],
     ["Mistral-Version"], "chat", "v1");
    ("Perplexity", ["api.perplexity.ai"],
     ["/chat/completions"],
     ["User-Agent"], "chat", "v1");
    ("AWS Bedrock", ["bedrock-runtime.*.amazonaws.com"],
     ["/model/.*invoke"],
     ["X-Amz-Target"], "multimodal", "2023-06-01");
    ("IBM watsonx", ["us-south.ml.cloud.ibm.com"],
     ["/ml/v1/generation"],
     ["Authorization"], "chat", "v1") ].

Definition _build_rules : list Rule :=
  map (fun '(name, domains, paths, headers, model_type, api_version) =>
         mkRule name
           (map _wildcard_to_regex domains)
           (map compile paths)
           (map Py.lower headers)
           model_type api_version
           (if negb (Py.mem name ["AWS Bedrock"; "IBM watsonx"])
            then "medium" else "low"))
      catalog.

(** [self.rules], set by [__init__]. *)
Definition rules : list Rule := _build_rules.

(** Truth value of an optional string: [None] and the empty string are
    false. *)
Definition truthy (s : option string) : bool :=
  match s with
  | Some (String _ _) => true
  | _ => false
  end.

(** One round of the loop over the rules: the score and the signals the
    four tests add up. *)
Definition score_rule (ctx : RequestContext) (rule : Rule)
    : Q * list string :=
  let host := Py.lower (host ctx) in
  let signals := [] in
  let score := Float.lit 0.0 in
  let '(score, signals) :=
    if existsb (fun r => Re.matches r host) (rule_domains rule)
    then (Float.add score (Float.lit 0.5), signals ++ ["domain"])
    else (score, signals) in
  let '(score, signals) :=
    if existsb (fun p => Re.search p (path ctx)) (rule_paths rule)
    then (Float.add score (Float.lit 0.3), signals ++ ["path"])
    else (score, signals) in
  let header_keys := map (fun kv => Py.lower (fst kv)) (headers ctx) in
  let '(score, signals) :=
    if existsb (fun h => Py.mem h header_keys) (rule_headers rule)
    then (Float.add score (Float.lit 0.15), signals ++ ["header"])
    else (score, signals) in
  let '(score, signals) :=
    if truthy (tls_ja3 ctx) &&
       Py.mem (rule_service_name rule) ["OpenAI"; "Anthropic"]
    then (Float.add score (Float.lit 0.05), signals ++ ["tls-ja3"])
    else (score, signals) in
  (score, signals).

(** The list [matched] the loop builds. *)
Definition matched_of (rs : list Rule) (ctx : RequestContext)
    : list (Rule * Q * list string) :=
  flat_map
    (fun rule =>
       let '(score, signals) := score_rule ctx rule in
       if Float.geb score (Float.lit 0.45)
       then [(rule, score, signals)] else [])
    rs.

Definition fingerprint_with (rs : list Rule) (ctx : RequestContext)
    : option FingerprintResult :=
  match Py.sorted_desc Float.ltb (fun x => snd (fst x)) (matched_of rs ctx) with
  | [] => None
  | (rule, score, signals) :: _ =>
      Some (mkFingerprintResult
              (rule_service_name rule) (rule_model_type rule)
              (rule_api_version rule) (rule_risk_level rule)
              (Float.round2 score) signals)
  end.

Definition fingerprint (ctx : RequestContext) : option FingerprintResult :=
  fingerprint_with rules ctx.

End Fingerprinter.

(* ================================================================== *)
(** * proxy/policy_engine.py *)
(* ================================================================== *)

Module PolicyEngine.
Import DLPEngine Fingerprinter.

Record PolicyDecision : Type := mkPolicyDecision {
  action : string;
  reasons : list string;
  policy_matches : list string;
  parameters : list (string * string)
}.

(** The attributes [__init__] sets. *)
Record PolicyEngine : Type := mkPolicyEngine {
  whitelist : list string;
  enforce_external_block : bool
}.

Definition _severity : list string :=
  ["allow"; "redact"; "mask"; "rewrite"; "block"].

(** [list.index] raises for a string that is no action: [None]. *)
Definition _bump_action (current candidate : string) : option string :=
  match Py.index candidate _severity, Py.index current _severity with
  | Some ci, Some cu => Some (if (cu <? ci)%nat then candidate else current)
  | _, _ => None
  end.

(** The local variables of [evaluate]. *)
Record Locals : Type := mkLocals {
  l_matches : list string;
  l_reasons : list string;
  l_action : string;
  l_params : list (string * string)
}.

(** The body of one triggered [if]: two appends and a bump. *)
Definition trigger (rule_id reason floor : string) (st : Locals)
    : option Locals :=
  match _bump_action (l_action st) floor with
  | Some a =>
      Some (mkLocals (l_matches st ++ [rule_id]) (l_reasons st ++ [reason])
              a (l_params st))
  | None => None
  end.

Definition when (c : bool) (f : Locals -> option Locals) (st : Locals)
    : option Locals :=
  if c then f st else Some st.

Definition bind {A B : Type} (x : option A) (f : A -> option B) : option B :=
  match x with Some a => f a | None => None end.

(** The five conditions, as the [if]s of [evaluate] test them. *)
Definition pii_detected (dlp : DLPResult) : bool :=
  Float.geb (pii_score dlp) (Float.lit 0.2).
Definition secrets_detected (dlp : DLPResult) : bool :=
  Float.geb (secret_leakage_score dlp) (Float.lit 0.2).
Definition high_secret_risk (dlp : DLPResult) : bool :=
  Float.geb (secret_leakage_score dlp) (Float.lit 0.4).
Definition external_blocked (self : PolicyEngine)
    (fp : option FingerprintResult) : bool :=
  match fp with
  | Some f =>
      enforce_external_block self && negb (Py.mem (service_name f) (whitelist self))
  | None => false
  end.
Definition jailbreak_like (dlp : DLPResult) : bool :=
  match raw_prompt dlp with
  | Some p => Fingerprinter.truthy (Some p) &&
              Py.contains "ignore previous" (Py.lower p)
  | None => false
  end.

Definition external_reason (fp : option FingerprintResult) : string :=
  match fp with
  | Some f => "External LLM " ++ service_name f ++ " not whitelisted"
  | None => EmptyString
  end.

Definition set_param (k v : string) (st : Locals) : Locals :=
  mkLocals (l_matches st) (l_reasons st) (l_action st)
    ((k, v) :: filter (fun kv => negb (String.eqb (fst kv) k)) (l_params st)).

Definition evaluate (self : PolicyEngine) (fp : option FingerprintResult)
    (dlp : DLPResult) : option PolicyDecision :=
  let st := mkLocals [] [] "allow" [] in
  bind (when (pii_detected dlp)
          (trigger "RULE_NO_PII" "PII detected" "redact") st) (fun st =>
  bind (when (secrets_detected dlp)
          (trigger "RULE_REDACT_SECRETS" "Secrets detected" "redact") st) (fun st =>
  bind (when (high_secret_risk dlp)
          (trigger "RULE_BLOCK_SECRETS" "High secret risk" "block") st) (fun st =>
  bind (when (external_blocked self fp)
          (trigger "RULE_BLOCK_EXTERNAL" (external_reason fp) "block") st) (fun st =>
  bind (when (jailbreak_like dlp)
          (fun st =>
             bind (trigger "RULE_SAFE_MODE_REWRITE" "Jailbreak-like content"
                     "rewrite" st)
                  (fun st => Some (set_param "rewrite" "safe-mode" st))) st) (fun st =>
  let reasons :=
    match l_matches st with
    | [] => l_reasons st ++ ["No policies triggered"]
    | _ => l_reasons st
    end in
  Some (mkPolicyDecision (l_action st) reasons (l_matches st) (l_params st))))))).

End PolicyEngine.

(* ================================================================== *)
(** * proxy/redactor.py *)
(* ================================================================== *)

Module Redactor.
Import DLPEngine.

Record RedactionOutcome : Type := mkRedactionOutcome {
  action : string;
  redacted_text : option string;
  blocked : bool;
  notes : list string
}.

Definition REDACTION_TOKENS : list (string * string) :=
  [("pii", "[REDACTED—PII]");
   ("secret", "[REDACTED—SECRET]");
   ("high_entropy", "[REDACTED—SECRET]")].

(** [d.get(k, default)] *)
Fixpoint get (d : list (string * string)) (k default : string) : string :=
  match d with
  | [] => default
  | (k', v) :: d' => if String.eqb k k' then v else get d' k default
  end.

(** [sorted(dlp.sensitive_segments, key=lambda s: s.start, reverse=True)] *)
Definition by_start_desc (segs : list SensitiveSegment)
    : list SensitiveSegment :=
  Py.sorted_desc Z.ltb start segs.

(** [text[: segment.start] + token + text[segment.end :]] *)
Definition splice (text : string) (segment : SensitiveSegment)
    (token : string) : string :=
  Py.slice_to text (start segment) ++ token ++ Py.slice_from text (end_ segment).

Definition redaction_token (segment : SensitiveSegment) : string :=
  get REDACTION_TOKENS (label segment) "[REDACTED]".

Section WithHash.

(** The built-in [hash] on strings, which Python fixes per process
    only. *)
Variable hash : string -> Z.

Definition _hash_like (value : string) : string :=
  "[MASK:" ++ Py.str_of_N (Z.to_N (Z.abs (hash value) mod 10000000)) ++ "]".

Definition _basic_redact (prompt : string) (dlp : DLPResult)
    : RedactionOutcome :=
  let redacted :=
    fold_left (fun redacted segment =>
                 splice redacted segment (redaction_token segment))
              (by_start_desc (sensitive_segments dlp)) prompt in
  let blocked :=
    Float.geb (pii_score dlp) (Float.lit 0.8) ||
    Float.geb (secret_leakage_score dlp) (Float.lit 0.8) in
  let notes :=
    if blocked then ["blocked due to high risk"]
    else if negb (String.eqb redacted prompt) then ["redaction applied"]
    else ["no redaction needed"] in
  mkRedactionOutcome "redact" (Some redacted) blocked notes.

Definition _mask (prompt : string) (dlp : DLPResult) : RedactionOutcome :=
  let masked :=
    fold_left (fun masked segment =>
                 splice masked segment (_hash_like (value segment)))
              (by_start_desc (sensitive_segments dlp)) prompt in
  mkRedactionOutcome "mask" (Some masked) false ["masking applied"].

Definition redact (prompt : string) (dlp : DLPResult) (mode : string)
    : RedactionOutcome :=
  if String.eqb mode "block" then
    mkRedactionOutcome "block" None true ["blocked by policy"]
  else if String.eqb mode "mask" then _mask prompt dlp
  else if String.eqb mode "rewrite" then
    let rewritten :=
      "This prompt was rewritten to safe mode. Original content withheld." in
    mkRedactionOutcome "rewrite" (Some rewritten) false ["safe-mode rewrite"]
  else _basic_redact prompt dlp.

End WithHash.

End Redactor.

(* ================================================================== *)
(** * proxy/governance_logger.py *)
(* ================================================================== *)

(** What a call that may raise comes to. *)
Inductive result (A : Type) : Type :=
| Return (a : A)
| Raise (exn : string).
Arguments Return {A} a.
Arguments Raise {A} exn.

Module GovernanceLogger.

Record GovernanceEvent : Type := mkGovernanceEvent {
  session_id : string;
  user_id : string;
  timestamp : Q;
  target_service : string;
  model : string;
  prompt_hash : string;
  redaction_applied : bool;
  risk_score : Q;
  policy_triggered : list string;
  action : string;
  notes : list string
}.

(** The attributes of a logger: the two paths and the events held in
    memory. *)
Record GovernanceLogger : Type := mkGovernanceLogger {
  jsonl_path : string;
  csv_path : string;
  events : list GovernanceEvent
}.

Definition new : GovernanceLogger :=
  mkGovernanceLogger "governance_logs.jsonl" "governance_logs.csv" [].

Section Sink.

(** The file system: its states, opening a path for appending followed by one write,
    which raises [OSError] when the file cannot be opened or written, and
    [Path.exists]. *)
Variable World : Type.
Variable append_text : string -> string -> World -> result World.
Variable path_exists : string -> World -> bool.

(** [json.dumps(asdict(event))] and the header and row a
    [csv.DictWriter] writes for an event. *)
Variable json_dumps : GovernanceEvent -> string.
Variable csv_header : string.
Variable csv_row : GovernanceEvent -> string.

(** A method of the logger: from the logger and the file system to an
    outcome and what became of both. *)
Definition M (A : Type) : Type :=
  GovernanceLogger * World -> result A * (GovernanceLogger * World).

Definition ret {A : Type} (a : A) : M A := fun st => (Return a, st).

Definition bind {A B : Type} (m : M A) (f : A -> M B) : M B :=
  fun st =>
    match m st with
    | (Return a, st') => f a st'
    | (Raise e, st') => (Raise e, st')
    end.

Definition append_event (event : GovernanceEvent) : M unit :=
  fun '(self, w) =>
    (Return tt,
     (mkGovernanceLogger (jsonl_path self) (csv_path self)
        (events self ++ [event]), w)).

Definition write (path : GovernanceLogger -> string) (text : string)
    : M unit :=
  fun '(self, w) =>
    match append_text (path self) text w with
    | Return w' => (Return tt, (self, w'))
    | Raise e => (Raise e, (self, w))
    end.

Definition _write_jsonl (event : GovernanceEvent) : M unit :=
  write jsonl_path (json_dumps event ++ String Py.newline EmptyString).

Definition _write_csv (event : GovernanceEvent) : M unit :=
  fun '(self, w) =>
    let new_file := negb (path_exists (csv_path self) w) in
    write csv_path
      ((if new_file then csv_header else EmptyString) ++ csv_row event)
      (self, w).

Definition log (event : GovernanceEvent) : M unit :=
  bind (append_event event) (fun _ =>
  bind (_write_jsonl event) (fun _ =>
  _write_csv event)).

End Sink.

(** [self.events[-limit:]] *)
Definition latest (self : GovernanceLogger) (limit : Z)
    : list GovernanceEvent :=
  Py.list_slice_from (events self) (- limit).

(** The loop of [stats]: one count more for the service of each event. *)
Definition stats (self : GovernanceLogger) : list (string * Z) :=
  fold_left
    (fun counts e =>
       Py.dict_set counts (target_service e)
         (Py.dict_get counts (target_service e) 0 + 1))
    (events self) [].

(** [synthetic_event] with the keyword arguments [handle] passes: every
    default but the timestamp is overridden. *)
Definition synthetic_event (now : Q)
    (session_id user_id target_service model prompt_hash : string)
    (redaction_applied : bool) (risk_score : Q)
    (policy_triggered : list string) (action : string) (notes : list string)
    : GovernanceEvent :=
  mkGovernanceEvent session_id user_id now target_service model prompt_hash
    redaction_applied risk_score policy_triggered action notes.

End GovernanceLogger.

(* ================================================================== *)
(** * proxy/main.py *)
(* ================================================================== *)

Module ProxyOrchestrator.
Import GovernanceLogger.

Record InterceptedRequest : Type := mkInterceptedRequest {
  session_id : string;
  user_id : string;
  host : string;
  path : string;
  method : string;
  headers : list (string * string);
  body : option string
}.

(** The policy engine [__init__] builds. *)
Definition policy : PolicyEngine.PolicyEngine :=
  PolicyEngine.mkPolicyEngine ["OpenAI"; "Azure OpenAI"; "Google Gemini"] true.

Section Handle.

Variable entropy_sum : string -> Q.
Variable hash : string -> Z.
(** [hashlib.sha256(s.encode()).hexdigest()] and [time.time()]. *)
Variable sha256_hexdigest : string -> string.
Variable World : Type.
Variable time : World -> Q.
Variable append_text : string -> string -> World -> result World.
Variable path_exists : string -> World -> bool.
Variable json_dumps : GovernanceEvent -> string.
Variable csv_header : string.
Variable csv_row : GovernanceEvent -> string.

(** [req.body or] the empty string *)
Definition prompt_of (req : InterceptedRequest) : string :=
  match body req with
  | Some (String c s) => String c s
  | _ => EmptyString
  end.

(** The event [handle] builds before it logs it; [None] stands for the
    [ValueError] of [PolicyEngine._bump_action]. *)
Definition build_event (req : InterceptedRequest) (now : Q)
    : option GovernanceEvent :=
  let ctx :=
    Fingerprinter.mkRequestContext (host req) (path req) (method req)
      (headers req) (body req) None None in
  let fp_result := Fingerprinter.fingerprint ctx in
  let prompt := prompt_of req in
  (* DLPEngine(enable_spacy=False) *)
  let dlp_result := DLPEngine.analyze entropy_sum None prompt in
  match PolicyEngine.evaluate policy fp_result dlp_result with
  | None => None
  | Some decision =>
      let redaction :=
        Redactor.redact hash prompt dlp_result (PolicyEngine.action decision) in
      let prompt_hash := Py.slice_to (sha256_hexdigest prompt) 12 in
      Some
        (synthetic_event now
           (session_id req) (user_id req)
           (match fp_result with
            | Some fp => Fingerprinter.service_name fp
            | None => "Unknown"
            end)
           (match fp_result with
            | Some fp => Fingerprinter.model_type fp
            | None => "unknown"
            end)
           prompt_hash
           (Py.mem (Redactor.action redaction) ["redact"; "mask"; "rewrite"])
           (Float.max (DLPEngine.pii_score dlp_result)
                      (DLPEngine.secret_leakage_score dlp_result))
           (PolicyEngine.policy_matches decision)
           (PolicyEngine.action decision)
           (PolicyEngine.reasons decision ++ Redactor.notes redaction))
  end.

Definition handle (req : InterceptedRequest) : M World GovernanceEvent :=
  fun st =>
    match build_event req (time (snd st)) with
    | None => (Raise "ValueError", st)
    | Some event =>
        bind World
          (log World append_text path_exists json_dumps csv_header csv_row
             event)
          (fun _ => ret World event) st
    end.

End Handle.

End ProxyOrchestrator.

(* ================================================================== *)
(** * The rule table of the policy, as the specification lists it *)
(* ================================================================== *)

Module PolicyTable.
Import PolicyEngine.

(** One row: whether the condition holds, the action floor, the rule id. *)
Definition row : Type := bool * string * string.

Definition rows (self : PolicyEngine.PolicyEngine)
    (fp : option Fingerprinter.FingerprintResult)
    (dlp : DLPEngine.DLPResult) : list row :=
  [ (pii_detected dlp, "redact", "RULE_NO_PII");
    (secrets_detected dlp, "redact", "RULE_REDACT_SECRETS");
    (high_secret_risk dlp, "block", "RULE_BLOCK_SECRETS");
    (external_blocked self fp, "block", "RULE_BLOCK_EXTERNAL");
    (jailbreak_like dlp, "rewrite", "RULE_SAFE_MODE_REWRITE") ].

Definition holds (r : row) : bool := fst (fst r).
Definition floor (r : row) : string := snd (fst r).
Definition rule_id (r : row) : string := snd r.

(** The rank of an action in allow < redact < mask < rewrite < block. *)
Definition rank (a : string) : option nat :=
  if String.eqb a "allow" then Some 0%nat
  else if String.eqb a "redact" then Some 1%nat
  else if String.eqb a "mask" then Some 2%nat
  else if String.eqb a "rewrite" then Some 3%nat
  else if String.eqb a "block" then Some 4%nat
  else None.

(** [a] is at most as severe as [b]. *)
Definition le (a b : string) : Prop :=
  exists i j, rank a = Some i /\ rank b = Some j /\ (i <= j)%nat.

End PolicyTable.

(* ================================================================== *)
(** * Vocabulary of the statements *)
(* ================================================================== *)

Module Spans.
Import DLPEngine.

(** [a] ends at or before the start of [b]. *)
Definition ends_before (a b : SensitiveSegment) : Prop :=
  (end_ a <= start b)%Z.

(** Two segments overlap when neither ends before the other starts. *)
Definition overlap (a b : SensitiveSegment) : Prop :=
  ~ ends_before a b /\ ~ ends_before b a.

(** Spans in a row from [lo] on: each starts at or after the end of the one
    before. *)
Fixpoint chain (lo : nat) (l : list (nat * nat)) : Prop :=
  match l with
  | [] => True
  | (a, b) :: l' => (lo <= a)%nat /\ (a <= b)%nat /\ chain b l'
  end.

(** The secret segments that come from the catalog of patterns. *)
Definition is_catalog_secret (h : SensitiveSegment) : bool :=
  in_keys (label h) SECRET_REGEXES.

End Spans.

Module Hosts.

(** Every character of [s] is in the class [c]. *)
Fixpoint all_in (c : Re.cls) (s : string) : bool :=
  match s with
  | EmptyString => true
  | String x s' => c x && all_in c s'
  end.

Definition not_star : Re.cls := fun x => negb (Ascii.eqb x "*").

(** The text is ASCII: every character is below 128.  On such text the
    embedding of [str] and of [re] is exact. *)
Definition is_ascii_char : Re.cls := fun x => (nat_of_ascii x <? 128)%nat.
Definition is_ascii (s : string) : bool := all_in is_ascii_char s.

(** The score of a rule for a request, and whether it reaches the
    threshold, as the loop of [fingerprint] computes them. *)
Definition score (ctx : Fingerprinter.RequestContext)
    (rule : Fingerprinter.Rule) : Q :=
  fst (Fingerprinter.score_rule ctx rule).

Definition qualifies (ctx : Fingerprinter.RequestContext)
    (rule : Fingerprinter.Rule) : bool :=
  Float.geb (score ctx rule) (Float.lit 0.45).

End Hosts.

(* ================================================================== *)
(** * Vocabulary of the further properties *)
(* ================================================================== *)

Module Placement.
Import DLPEngine.

(** The segment lies inside the text, and its value is the text between
    its offsets. *)
Definition well_placed (text : string) (seg : SensitiveSegment) : Prop :=
  (0 <= start seg <= end_ seg)%Z /\
  (end_ seg <= Py.len text)%Z /\
  value seg = Py.slice text (Z.to_nat (start seg)) (Z.to_nat (end_ seg)).

(** The labels a segment can carry: the keys of the two catalogs, the label
    of the entropy scan and the entity labels. *)
Definition known_labels : list string :=
  map fst PII_REGEXES ++ map fst SECRET_REGEXES ++
  ["high_entropy"] ++ ENTITY_LABELS.

(** [a] starts at or after the start of [b]. *)
Definition starts_after (a b : SensitiveSegment) : Prop :=
  (start b <= start a)%Z.

(** Segments in the order the redactor handles them: the first lies inside
    the text below [hi], the next ones lie before its start. *)
Fixpoint descending (hi : Z) (d : list SensitiveSegment) : Prop :=
  match d with
  | [] => True
  | h :: t =>
      (0 <= start h <= end_ h)%Z /\ (end_ h <= hi)%Z /\
      descending (start h) t
  end.

(** The text with each segment replaced by its token: what is left of the
    first segment of [d], treated in the same way, then the token, then the
    text right of the segment untouched. *)
Fixpoint replaced (token : SensitiveSegment -> string) (text : string)
    (d : list SensitiveSegment) : string :=
  match d with
  | [] => text
  | h :: t =>
      (replaced token (Py.slice_to text (start h)) t ++
       token h ++ Py.slice_from text (end_ h))%string
  end.

(** One round of the loops of [_basic_redact] and [_mask]. *)
Definition step (token : SensitiveSegment -> string) (text : string)
    (segment : SensitiveSegment) : string :=
  Redactor.splice text segment (token segment).

End Placement.

Module Routes.
Import Fingerprinter.

Definition not_dot : Re.cls := fun x => negb (Ascii.eqb x ".").

(** The first test of the loop of [fingerprint]: some domain pattern of
    the rule matches the lowered host. *)
Definition host_matches (ctx : RequestContext) (rule : Rule) : bool :=
  existsb (fun r => Re.matches r (Py.lower (host ctx))) (rule_domains rule).

End Routes.

(** A file system that never fails: the files, each with its content. *)
Module MemoryFs.

Definition World : Type := list (string * string).

Fixpoint read (path : string) (w : World) : option string :=
  match w with
  | [] => None
  | (p, c) :: w' => if String.eqb path p then Some c else read path w'
  end.

Fixpoint write (path content : string) (w : World) : World :=
  match w with
  | [] => [(path, content)]
  | (p, c) :: w' =>
      if String.eqb path p then (p, content) :: w'
      else (p, c) :: write path content w'
  end.

(** Appending creates the file when it is missing. *)
Definition append_text (path text : string) (w : World) : result World :=
  Return (write path
            (match read path w with
             | Some c => (c ++ text)%string
             | None => text
             end) w).

Definition path_exists (path : string) (w : World) : bool :=
  match read path w with Some _ => true | None => false end.

End MemoryFs.

Module Journal.
Import GovernanceLogger.

(** The number of events of a service. *)
Definition count_service (s : string) (es : list GovernanceEvent) : Z :=
  Z.of_nat (List.length (filter (fun e => String.eqb (target_service e) s) es)).

Section OnMemory.

Variable json_dumps : GovernanceEvent -> string.
Variable csv_header : string.
Variable csv_row : GovernanceEvent -> string.

(** [log] on the file system that never fails. *)
Definition log_mem :=
  log MemoryFs.World MemoryFs.append_text MemoryFs.path_exists json_dumps
    csv_header csv_row.

(** Logging the events of a list one after the other. *)
Fixpoint log_all (es : list GovernanceEvent)
    (st : GovernanceLogger * MemoryFs.World)
    : GovernanceLogger * MemoryFs.World :=
  match es with
  | [] => st
  | e :: es' => log_all es' (snd (log_mem e st))
  end.

(** The lines and the rows the events come to. *)
Definition lines (es : list GovernanceEvent) : string :=
  String.concat EmptyString
    (map (fun e => (json_dumps e ++ String Py.newline EmptyString)%string) es).

Definition rows (es : list GovernanceEvent) : string :=
  String.concat EmptyString (map csv_row es).

End OnMemory.

End Journal.

(* ================================================================== *)
(** * Facts about the float model *)
(* ================================================================== *)

Module FloatFacts.
Import Float.
Local Open Scope Q_scope.

Lemma floor_spec (q : Q) : inject_Z (Qfloor q) <= q /\ q < inject_Z (Qfloor q + 1).
Proof. split; [apply Qfloor_le | apply Qlt_floor]. Qed.

Lemma inject_Z_succ (z : Z) : inject_Z (z + 1) == inject_Z z + 1.
Proof. rewrite inject_Z_plus. reflexivity. Qed.

(** The three outcomes of [round_half_even], read off the remainder. *)
Lemma round_half_even_cases (q : Q) :
  let f := Qfloor q in
  (q - inject_Z f < 1 # 2 /\ round_half_even q = f) \/
  (q - inject_Z f == 1 # 2 /\ round_half_even q = (if Z.even f then f else f + 1)%Z) \/
  (1 # 2 < q - inject_Z f /\ round_half_even q = (f + 1)%Z).
Proof.
  unfold round_half_even; cbv zeta.
  destruct (Qcompare_spec (q - inject_Z (Qfloor q)) (1 # 2)) as [H | H | H]; auto.
Qed.

Lemma round_half_even_comp (x y : Q) :
  x == y -> round_half_even x = round_half_even y.
Proof.
  intros E. unfold round_half_even.
  assert (F : Qfloor x = Qfloor y) by (rewrite E; reflexivity).
  rewrite F.
  assert (C : Qcompare (x - inject_Z (Qfloor y)) (1 # 2) =
              Qcompare (y - inject_Z (Qfloor y)) (1 # 2)) by (rewrite E; reflexivity).
  rewrite C. reflexivity.
Qed.

Lemma round_half_even_Z (k : Z) : round_half_even (inject_Z k) = k.
Proof.
  destruct (round_half_even_cases (inject_Z k)) as [[_ H] | [[H _] | [H _]]];
    rewrite Qfloor_Z in *; auto; exfalso; lra.
Qed.

Lemma round_half_even_mono (x y : Q) :
  x <= y -> (round_half_even x <= round_half_even y)%Z.
Proof.
  intros L.
  pose proof (Qfloor_resp_le _ _ L) as F.
  destruct (Z.eq_dec (Qfloor x) (Qfloor y)) as [E | N].
  - destruct (round_half_even_cases x) as [[Hx Rx] | [[Hx Rx] | [Hx Rx]]];
    destruct (round_half_even_cases y) as [[Hy Ry] | [[Hy Ry] | [Hy Ry]]];
    rewrite Rx, Ry; rewrite E in *;
      try (destruct (Z.even (Qfloor y))); try lia; exfalso; lra.
  - assert (Qfloor x + 1 <= Qfloor y)%Z by lia.
    destruct (round_half_even_cases x) as [[Hx Rx] | [[Hx Rx] | [Hx Rx]]];
    destruct (round_half_even_cases y) as [[Hy Ry] | [[Hy Ry] | [Hy Ry]]];
    rewrite Rx, Ry;
      try (destruct (Z.even (Qfloor x))); try (destruct (Z.even (Qfloor y))); lia.
Qed.

Lemma pow2_pos (e : Z) : 0 < 2 ^ e.
Proof. apply Qpower_0_lt. reflexivity. Qed.

Lemma pow2_le (n m : Z) : (n <= m)%Z -> 2 ^ n <= 2 ^ m.
Proof. intros H. apply Qpower_le_compat_l; [exact H | discriminate]. Qed.

Lemma pow2_succ (e : Z) : 2 ^ (e + 1) == 2 * 2 ^ e.
Proof. rewrite Qpower_plus by discriminate. rewrite Qpower_1_r. ring. Qed.

Lemma pow2_pred (e : Z) : 2 * 2 ^ (e - 1) == 2 ^ e.
Proof.
  rewrite <- pow2_succ. replace (e - 1 + 1)%Z with e by lia. reflexivity.
Qed.

Lemma pow2_inject (n : Z) : (0 <= n)%Z -> inject_Z (2 ^ n) == 2 ^ n.
Proof. intros H. rewrite Zpower_Qpower by exact H. reflexivity. Qed.

Lemma Qnum_pos (q : Q) : 0 < q <-> (0 < Qnum q)%Z.
Proof. unfold Qlt; simpl. lia. Qed.

(** [binade q] is the binary exponent of [q]. *)
Lemma binade_spec (q : Q) :
  0 < q -> 2 ^ binade q <= q /\ q < 2 ^ (binade q + 1).
Proof.
  intros Hq. unfold binade; cbv zeta.
  set (a := Qnum q). set (b := Zpos (Qden q)).
  assert (Ha : (0 < a)%Z) by (apply Qnum_pos; exact Hq).
  assert (Hb : (0 < b)%Z) by (unfold b; lia).
  destruct (Z.log2_spec a Ha) as [La Ua].
  destruct (Z.log2_spec b Hb) as [Lb Ub].
  pose proof (Z.log2_nonneg a) as Na. pose proof (Z.log2_nonneg b) as Nb.
  assert (Eq : q * inject_Z b == inject_Z a).
  { unfold Qeq, a, b; destruct q as [n d]; simpl. lia. }
  assert (LA : 2 ^ Z.log2 a <= inject_Z a).
  { rewrite <- pow2_inject by exact Na. rewrite <- Zle_Qle. exact La. }
  assert (UA : inject_Z a < 2 * 2 ^ Z.log2 a).
  { rewrite <- pow2_succ, <- pow2_inject by lia. rewrite <- Zlt_Qlt.
    unfold Z.succ in Ua. exact Ua. }
  assert (LB : 2 ^ Z.log2 b <= inject_Z b).
  { rewrite <- pow2_inject by exact Nb. rewrite <- Zle_Qle. exact Lb. }
  assert (UB : inject_Z b < 2 * 2 ^ Z.log2 b).
  { rewrite <- pow2_succ, <- pow2_inject by lia. rewrite <- Zlt_Qlt.
    unfold Z.succ in Ub. exact Ub. }
  assert (E0 : 2 ^ (Z.log2 a - Z.log2 b) * 2 ^ Z.log2 b == 2 ^ Z.log2 a).
  { rewrite <- Qpower_plus by discriminate.
    replace (Z.log2 a - Z.log2 b + Z.log2 b)%Z with (Z.log2 a) by lia.
    reflexivity. }
  pose proof (pow2_pos (Z.log2 a)) as PA.
  pose proof (pow2_pos (Z.log2 b)) as PB.
  pose proof (pow2_pos (Z.log2 a - Z.log2 b)) as PE.
  set (t := 2 ^ (Z.log2 a - Z.log2 b)) in *.
  set (pa := 2 ^ Z.log2 a) in *. set (pb := 2 ^ Z.log2 b) in *.
  set (A := inject_Z a) in *. set (B := inject_Z b) in *.
  assert (Up : q < 2 * t).
  { apply Qnot_le_lt; intros C.
    assert (2 * t * pb <= q * pb) by (apply Qmult_le_compat_r; lra).
    assert (q * pb <= q * B) by (apply Qmult_le_l; lra).
    lra. }
  assert (Lo : t < 2 * q).
  { apply Qnot_le_lt; intros C.
    assert (2 * q * pb <= t * pb) by (apply Qmult_le_compat_r; lra).
    assert (q * B < q * (2 * pb)) by (apply Qmult_lt_l; lra).
    lra. }
  destruct (Qle_bool t q) eqn:T.
  - apply Qle_bool_iff in T. split; [exact T |].
    rewrite pow2_succ. exact Up.
  - assert (T' : q < t).
    { apply Qnot_le_lt; intros C. apply Qle_bool_iff in C. congruence. }
    replace (Z.log2 a - Z.log2 b - 1 + 1)%Z with (Z.log2 a - Z.log2 b)%Z by lia.
    split; [| exact T'].
    pose proof (pow2_pred (Z.log2 a - Z.log2 b)) as P. fold t in P. lra.
Qed.

Lemma binade_mono (x y : Q) : 0 < x -> x <= y -> (binade x <= binade y)%Z.
Proof.
  intros Hx L.
  destruct (binade_spec x Hx) as [Lx Ux].
  destruct (binade_spec y) as [Ly Uy]; [lra |].
  destruct (Z_le_gt_dec (binade x) (binade y)) as [H | H]; [exact H | exfalso].
  assert (2 ^ (binade y + 1) <= 2 ^ binade x) by (apply pow2_le; lia).
  lra.
Qed.

(** The significand of a positive number lies between [2^52] and [2^53]. *)
Lemma significand_bounds (q : Q) :
  0 < q ->
  (2 ^ 52 <= round_half_even (q / 2 ^ (binade q - 52)) <= 2 ^ 53)%Z.
Proof.
  intros Hq. destruct (binade_spec q Hq) as [L U].
  pose proof (pow2_pos (binade q - 52)) as P.
  assert (E : 2 ^ binade q == 2 ^ 52 * 2 ^ (binade q - 52)).
  { rewrite <- Qpower_plus by discriminate.
    replace (52 + (binade q - 52))%Z with (binade q) by lia. reflexivity. }
  assert (E' : 2 ^ (binade q + 1) == 2 ^ 53 * 2 ^ (binade q - 52)).
  { rewrite <- Qpower_plus by discriminate.
    replace (53 + (binade q - 52))%Z with (binade q + 1)%Z by lia. reflexivity. }
  set (p := 2 ^ (binade q - 52)) in *.
  assert (L' : inject_Z (2 ^ 52) <= q / p).
  { apply Qle_shift_div_l; [exact P |].
    rewrite pow2_inject by lia. rewrite <- E. exact L. }
  assert (U' : q / p <= inject_Z (2 ^ 53)).
  { apply Qle_shift_div_r; [exact P |].
    rewrite pow2_inject by lia. rewrite <- E'. lra. }
  split.
  - rewrite <- (round_half_even_Z (2 ^ 52)).
    apply round_half_even_mono. exact L'.
  - rewrite <- (round_half_even_Z (2 ^ 53)).
    apply round_half_even_mono. exact U'.
Qed.

Lemma round53_pos_bounds (q : Q) :
  0 < q -> 2 ^ binade q <= round53_pos q /\ round53_pos q <= 2 ^ (binade q + 1).
Proof.
  intros Hq. unfold round53_pos; cbv zeta.
  destruct (significand_bounds q Hq) as [L U].
  pose proof (pow2_pos (binade q - 52)) as P.
  assert (E : 2 ^ binade q == 2 ^ 52 * 2 ^ (binade q - 52)).
  { rewrite <- Qpower_plus by discriminate.
    replace (52 + (binade q - 52))%Z with (binade q) by lia. reflexivity. }
  assert (E' : 2 ^ (binade q + 1) == 2 ^ 53 * 2 ^ (binade q - 52)).
  { rewrite <- Qpower_plus by discriminate.
    replace (53 + (binade q - 52))%Z with (binade q + 1)%Z by lia. reflexivity. }
  rewrite E, E'.
  rewrite <- (pow2_inject 52), <- (pow2_inject 53) by lia.
  split; (apply Qmult_le_compat_r; [rewrite <- Zle_Qle; assumption | lra]).
Qed.

Lemma round53_pos_mono (x y : Q) :
  0 < x -> x <= y -> round53_pos x <= round53_pos y.
Proof.
  intros Hx L.
  assert (Hy : 0 < y) by lra.
  pose proof (binade_mono x y Hx L) as B.
  destruct (Z.eq_dec (binade x) (binade y)) as [E | N].
  - unfold round53_pos; cbv zeta. rewrite E.
    pose proof (pow2_pos (binade y - 52)) as P.
    apply Qmult_le_compat_r; [| lra].
    rewrite <- Zle_Qle. apply round_half_even_mono.
    apply Qmult_le_compat_r; [exact L |].
    apply Qlt_le_weak, Qinv_lt_0_compat, P.
  - destruct (round53_pos_bounds x Hx) as [_ U].
    destruct (round53_pos_bounds y Hy) as [L' _].
    assert (2 ^ (binade x + 1) <= 2 ^ binade y) by (apply pow2_le; lia).
    lra.
Qed.

Lemma round53_of_pos (q : Q) : 0 < q -> round53 q == round53_pos q.
Proof.
  intros Hq. apply Qnum_pos in Hq. unfold round53.
  destruct (Qnum q); try lia. apply Qred_correct.
Qed.

Lemma round53_pos_gt (q : Q) : 0 < q -> 0 < round53 q.
Proof.
  intros Hq. rewrite (round53_of_pos q Hq).
  destruct (round53_pos_bounds q Hq) as [L _].
  pose proof (pow2_pos (binade q)). lra.
Qed.

Lemma round53_zero (q : Q) : q == 0 -> round53 q = 0.
Proof.
  intros E. unfold round53. destruct q as [n d].
  unfold Qeq in E; simpl in *. replace n with 0%Z by lia. reflexivity.
Qed.

Lemma round53_nonneg (q : Q) : 0 <= q -> 0 <= round53 q.
Proof.
  intros H. destruct (Qlt_le_dec 0 q) as [P | Z].
  - apply Qlt_le_weak, round53_pos_gt, P.
  - rewrite round53_zero; [lra | lra].
Qed.

(** Rounding is monotone on the non-negative numbers. *)
Lemma round53_mono (x y : Q) : 0 <= x -> x <= y -> round53 x <= round53 y.
Proof.
  intros Hx L. destruct (Qlt_le_dec 0 x) as [P | Z].
  - rewrite (round53_of_pos x P), (round53_of_pos y) by lra.
    apply round53_pos_mono; assumption.
  - rewrite (round53_zero x) by lra. apply round53_nonneg. lra.
Qed.

Lemma binade_unique (q : Q) (e : Z) :
  0 < q -> 2 ^ e <= q -> q < 2 ^ (e + 1) -> binade q = e.
Proof.
  intros Hq L U. destruct (binade_spec q Hq) as [L' U'].
  destruct (Z.lt_trichotomy (binade q) e) as [H | [H | H]]; [| exact H |];
    exfalso.
  - assert (2 ^ (binade q + 1) <= 2 ^ e) by (apply pow2_le; lia). lra.
  - assert (2 ^ (e + 1) <= 2 ^ binade q) by (apply pow2_le; lia). lra.
Qed.

Lemma scale_back (m : Z) (s : Z) : inject_Z m * 2 ^ s / 2 ^ s == inject_Z m.
Proof.
  pose proof (pow2_pos s). field. intros E. rewrite E in H. lra.
Qed.

(** A rounded number is a float: rounding it again changes nothing. *)
Lemma round53_pos_idempotent (q : Q) :
  0 < q -> round53_pos (round53_pos q) == round53_pos q.
Proof.
  intros Hq.
  destruct (significand_bounds q Hq) as [L U].
  set (s := (binade q - 52)%Z) in *.
  set (m := round_half_even (q / 2 ^ s)) in *.
  assert (V : round53_pos q = inject_Z m * 2 ^ s) by reflexivity.
  pose proof (pow2_pos s) as P.
  assert (E : 2 ^ binade q == 2 ^ 52 * 2 ^ s).
  { rewrite <- Qpower_plus by discriminate.
    replace (52 + s)%Z with (binade q) by (unfold s; lia). reflexivity. }
  assert (E' : 2 ^ (binade q + 1) == 2 ^ 53 * 2 ^ s).
  { rewrite <- Qpower_plus by discriminate.
    replace (53 + s)%Z with (binade q + 1)%Z by (unfold s; lia). reflexivity. }
  assert (Lm : inject_Z (2 ^ 52) <= inject_Z m) by (rewrite <- Zle_Qle; exact L).
  assert (Pv : 0 < inject_Z m * 2 ^ s).
  { apply Qmult_lt_0_compat; [| exact P].
    apply Qlt_le_trans with (inject_Z (2 ^ 52)); [reflexivity | exact Lm]. }
  rewrite V.
  destruct (Z.eq_dec m (2 ^ 53)) as [Top | Below].
  - assert (B : binade (inject_Z m * 2 ^ s) = (binade q + 1)%Z).
    { apply binade_unique; [exact Pv | |].
      - rewrite E', Top, pow2_inject by lia. lra.
      - rewrite pow2_succ, E', Top, pow2_inject by lia. lra. }
    unfold round53_pos at 1; cbv zeta. rewrite B.
    replace (binade q + 1 - 52)%Z with (s + 1)%Z by (unfold s; lia).
    assert (D : inject_Z m * 2 ^ s / 2 ^ (s + 1) == inject_Z (2 ^ 52)).
    { rewrite Top, pow2_succ, !pow2_inject by lia.
      change (2 ^ 53) with (2 * 2 ^ 52). field.
      intros Z0. rewrite Z0 in P. lra. }
    rewrite (round_half_even_comp _ _ D), round_half_even_Z.
    rewrite Top, pow2_succ, !pow2_inject by lia.
    change (2 ^ 53) with (2 * 2 ^ 52). ring.
  - assert (Um : inject_Z m < inject_Z (2 ^ 53)) by (rewrite <- Zlt_Qlt; lia).
    assert (B : binade (inject_Z m * 2 ^ s) = binade q).
    { apply binade_unique; [exact Pv | |].
      - rewrite E. rewrite <- (pow2_inject 52) by lia.
        apply Qmult_le_compat_r; [exact Lm | lra].
      - rewrite E'. rewrite <- (pow2_inject 53) by lia.
        apply Qmult_lt_compat_r; [exact P | exact Um]. }
    unfold round53_pos at 1; cbv zeta. rewrite B. fold s.
    rewrite (round_half_even_comp _ _ (scale_back m s)), round_half_even_Z.
    reflexivity.
Qed.

Lemma round53_pos_comp (x y : Q) :
  0 < x -> x == y -> round53_pos x == round53_pos y.
Proof.
  intros Hx E.
  assert (Hy : 0 < y) by (rewrite <- E; exact Hx).
  assert (B : binade x = binade y).
  { destruct (binade_spec y Hy) as [L U].
    apply binade_unique; [exact Hx | rewrite E; exact L | rewrite E; exact U]. }
  unfold round53_pos; cbv zeta. rewrite B.
  assert (D : x / 2 ^ (binade y - 52) == y / 2 ^ (binade y - 52))
    by (rewrite E; reflexivity).
  rewrite (round_half_even_comp _ _ D). reflexivity.
Qed.

Lemma round53_idempotent (q : Q) : 0 <= q -> round53 (round53 q) == round53 q.
Proof.
  intros H. destruct (Qlt_le_dec 0 q) as [P | Z0].
  - pose proof (round53_pos_gt q P) as G.
    rewrite (round53_of_pos _ G).
    rewrite (round53_pos_comp _ _ G (round53_of_pos q P)).
    rewrite round53_pos_idempotent by exact P.
    symmetry. apply round53_of_pos, P.
  - rewrite (round53_zero q) by lra. reflexivity.
Qed.

(** Against a float, a literal threshold that is not rounded down compares
    as the decimal it is written as. *)
Lemma geb_lit_exact (c x : Q) :
  0 <= c -> c <= lit c -> is_float x ->
  (geb x (lit c) = true <-> c <= x).
Proof.
  intros C Up F. unfold is_float in F. unfold geb. rewrite Qle_bool_iff. split; intros H.
  - lra.
  - rewrite <- F. apply round53_mono; assumption.
Qed.

(** The model computes what the hardware computes. *)
#[warnings="-inexact-float"]
Lemma model_agrees_with_binary64 :
  of_prim 0.2 = Some (lit 0.2) /\
  of_prim 0.45 = Some (lit 0.45) /\
  of_prim 0.8 = Some (lit 0.8) /\
  of_prim (3 * 0.2) = Some (mul (of_int 3) (lit 0.2)) /\
  of_prim (1 * 0.25 + 0.3) = Some (add (mul (of_int 1) (lit 0.25)) (lit 0.3)) /\
  of_prim (0.0 + 0.5 + 0.3 + 0.15 + 0.05) =
    Some (add (add (add (add (lit 0.0) (lit 0.5)) (lit 0.3)) (lit 0.15)) (lit 0.05)) /\
  of_prim (0.0 + 0.3 + 0.15) = Some (add (add (lit 0.0) (lit 0.3)) (lit 0.15)) /\
  of_prim (0.0 + 0.3 + 0.15 + 0.05) =
    Some (add (add (add (lit 0.0) (lit 0.3)) (lit 0.15)) (lit 0.05)).
Proof. vm_compute. repeat split; reflexivity. Qed.

(** What [round(x, 2)] returns is a float. *)
Lemma round2_is_float (x : Q) : 0 <= x -> is_float (round2 x).
Proof.
  intros H. unfold is_float, round2. apply round53_idempotent.
  apply Qle_shift_div_l; [reflexivity |].
  change 0 with (inject_Z 0) at 1. rewrite Qmult_0_l.
  change 0 with (inject_Z 0). rewrite <- Zle_Qle.
  rewrite <- (round_half_even_Z 0). apply round_half_even_mono.
  change (inject_Z 0) with 0. lra.
Qed.

End FloatFacts.

(* ================================================================== *)
(** * The policy engine *)
(* ================================================================== *)

(** The rank of the table is the position [_bump_action] looks up in
    [_severity]. *)
Lemma rank_is_position (a : string) :
  PolicyTable.rank a = Py.index a PolicyEngine._severity.
Proof.
  unfold PolicyTable.rank, PolicyEngine._severity. simpl.
  destruct (String.eqb a "allow"); [reflexivity |].
  destruct (String.eqb a "redact"); [reflexivity |].
  destruct (String.eqb a "mask"); [reflexivity |].
  destruct (String.eqb a "rewrite"); [reflexivity |].
  destruct (String.eqb a "block"); reflexivity.
Qed.

(** [_bump_action] picks the more severe of two actions, and keeps the
    current one when they rank the same. *)
Lemma bump_action_is_max (current candidate : string) (i j : nat) :
  PolicyTable.rank current = Some i ->
  PolicyTable.rank candidate = Some j ->
  PolicyEngine._bump_action current candidate =
    Some (if (i <? j)%nat then candidate else current).
Proof.
  intros Hi Hj. unfold PolicyEngine._bump_action.
  rewrite <- !rank_is_position, Hi, Hj. reflexivity.
Qed.

Section PolicyFacts.
Import PolicyEngine PolicyTable.

Variable self : PolicyEngine.PolicyEngine.
Variable fp : option Fingerprinter.FingerprintResult.
Variable dlp : DLPEngine.DLPResult.

(** The five conditions decide [evaluate]; this tactic walks through their
    thirty-two outcomes. *)
Ltac by_conditions :=
  unfold evaluate, rows;
  destruct (pii_detected dlp), (secrets_detected dlp),
           (high_secret_risk dlp), (external_blocked self fp),
           (jailbreak_like dlp).

(** [evaluate] never raises: every action it bumps is in [_severity]. *)
Lemma evaluate_total : exists d, evaluate self fp dlp = Some d.
Proof. by_conditions; eexists; reflexivity. Qed.

(** The matched rule ids are the ids of the rows that hold, in the order
    of the table. *)
Lemma evaluate_matches (d : PolicyDecision) :
  evaluate self fp dlp = Some d ->
  policy_matches d = map rule_id (filter holds (rows self fp dlp)).
Proof.
  by_conditions; intros E; injection E as <-; reflexivity.
Qed.

(** C3. [evaluate] returns a decision whose action is the maximum, under
    allow < redact < mask < rewrite < block, of the floors of the rows
    that hold: it is at least as severe as each of them, and it is one of
    them (or allow when no row holds).  In particular, when the rows
    RULE_BLOCK_SECRETS and RULE_SAFE_MODE_REWRITE both hold the action is
    block. *)
Theorem evaluate_action_is_max_floor :
  exists d,
    evaluate self fp dlp = Some d /\
    (forall r, In r (rows self fp dlp) -> holds r = true ->
               le (floor r) (action d)) /\
    ((exists r, In r (rows self fp dlp) /\ holds r = true /\
                floor r = action d) \/
     (filter holds (rows self fp dlp) = [] /\ action d = "allow")) /\
    (high_secret_risk dlp = true -> jailbreak_like dlp = true ->
     action d = "block").
Proof.
  by_conditions;
    (eexists; split; [reflexivity |]; split; [| split]);
    try (intros r [<- | [<- | [<- | [<- | [<- | []]]]]]; cbn;
         intros; try discriminate;
         do 2 eexists; repeat split; cbn; lia);
    try (intros; first [reflexivity | discriminate]);
    try (right; split; reflexivity);
    left; cbn;
    first
      [ eexists; split; [left; reflexivity | split; reflexivity]
      | eexists; split; [right; left; reflexivity | split; reflexivity]
      | eexists; split; [right; right; left; reflexivity | split; reflexivity]
      | eexists; split;
        [right; right; right; left; reflexivity | split; reflexivity]
      | eexists; split;
        [right; right; right; right; left; reflexivity | split; reflexivity] ].
Qed.

(** C9, as the code has it.  When no row of the table holds, [evaluate]
    returns the action allow, the single reason [No policies triggered],
    no matched rule id and no parameter. *)
Theorem evaluate_nothing_triggered :
  pii_detected dlp = false ->
  secrets_detected dlp = false ->
  high_secret_risk dlp = false ->
  external_blocked self fp = false ->
  jailbreak_like dlp = false ->
  evaluate self fp dlp =
    Some (mkPolicyDecision "allow" ["No policies triggered"] [] []).
Proof.
  intros H1 H2 H3 H4 H5. unfold evaluate.
  rewrite H1, H2, H3, H4, H5. reflexivity.
Qed.

End PolicyFacts.


(** A result under which no row of the table holds. *)
Lemma evaluate_nothing_triggered_witness :
  PolicyEngine.evaluate ProxyOrchestrator.policy None
    (DLPEngine.mkDLPResult 0 0 [] (Some "hello")) =
  Some (PolicyEngine.mkPolicyDecision "allow" ["No policies triggered"] [] []).
Proof.
  apply (evaluate_nothing_triggered ProxyOrchestrator.policy None
           (DLPEngine.mkDLPResult 0 0 [] (Some "hello")));
    vm_compute; reflexivity.
Defined.

(** The reason of the specification is not the reason the code gives: under a
    result that triggers nothing, the only reason differs from
    [no policy triggered]. *)
Lemma evaluate_reason_is_not_the_specified_one :
  exists d,
    PolicyEngine.evaluate ProxyOrchestrator.policy None
      (DLPEngine.mkDLPResult 0 0 [] (Some "hello")) = Some d /\
    PolicyEngine.action d = "allow" /\
    PolicyEngine.policy_matches d = [] /\
    PolicyEngine.reasons d <> ["no policy triggered"].
Proof.
  eexists. split; [vm_compute; reflexivity |].
  repeat split; discriminate.
Qed.

(* ================================================================== *)
(** * The redactor *)
(* ================================================================== *)

Section RedactorFacts.
Import Redactor DLPEngine.

Variable hash : string -> Z.
Variable prompt : string.
Variable dlp : DLPResult.

(** C1, as the code has it.  The redact-mode transform reports the action
    redact, and marks the outcome blocked exactly when [pii_score >= 0.8]
    or [secret_leakage_score >= 0.8]: one of the two is enough. *)
Theorem basic_redact_blocked_iff_either :
  action (_basic_redact prompt dlp) = "redact" /\
  (blocked (_basic_redact prompt dlp) = true <->
   Float.geb (pii_score dlp) (Float.lit 0.8) = true \/
   Float.geb (secret_leakage_score dlp) (Float.lit 0.8) = true).
Proof.
  split; [reflexivity |].
  unfold _basic_redact; cbn [blocked].
  apply orb_true_iff.
Qed.

(** The default branch of [redact] is the redact-mode transform. *)
Lemma redact_default (mode : string) :
  mode <> "block" -> mode <> "mask" -> mode <> "rewrite" ->
  redact hash prompt dlp mode = _basic_redact prompt dlp.
Proof.
  intros B M R. unfold redact.
  destruct (String.eqb_spec mode "block"); [contradiction |].
  destruct (String.eqb_spec mode "mask"); [contradiction |].
  destruct (String.eqb_spec mode "rewrite"); [contradiction |].
  reflexivity.
Qed.

(** C10. In the modes mask and rewrite the outcome is never blocked and
    always carries a text, whatever the two scores are. *)
Theorem mask_and_rewrite_never_block :
  (blocked (redact hash prompt dlp "mask") = false /\
   exists t, redacted_text (redact hash prompt dlp "mask") = Some t) /\
  (blocked (redact hash prompt dlp "rewrite") = false /\
   exists t, redacted_text (redact hash prompt dlp "rewrite") = Some t).
Proof.
  split; (split; [reflexivity | eexists; reflexivity]).
Qed.

End RedactorFacts.

(** One score is enough: a prompt with four e-mail addresses and no secret
    has [pii_score = 0.8] and [secret_leakage_score = 0], so the conjunction
    of the two tests is false, and the outcome is blocked all the same. *)
Lemma basic_redact_blocks_on_one_score :
  let prompt := "a@b.co c@d.co e@f.co g@h.co" in
  let dlp := DLPEngine.analyze (fun _ => 0%Q) None prompt in
  DLPEngine.pii_score dlp = Float.lit 0.8 /\
  DLPEngine.secret_leakage_score dlp = 0%Q /\
  Redactor.blocked (Redactor._basic_redact prompt dlp) = true /\
  (Float.geb (DLPEngine.pii_score dlp) (Float.lit 0.8) &&
   Float.geb (DLPEngine.secret_leakage_score dlp) (Float.lit 0.8)) = false.
Proof. vm_compute. repeat split; reflexivity. Qed.

(* ================================================================== *)
(** * The thresholds, read as decimals *)
(* ================================================================== *)

Section Thresholds.
Import DLPEngine.
Local Open Scope Q_scope.

Variable dlp : DLPResult.
Hypothesis pii_is_float : Float.is_float (pii_score dlp).
Hypothesis secret_is_float : Float.is_float (secret_leakage_score dlp).

(** On scores that are floats, as those of [analyze] are, the tests of the
    policy engine and of the redactor compare with the decimals 0.2, 0.4 and
    0.8 themselves. *)
Lemma thresholds_are_exact :
  (PolicyEngine.pii_detected dlp = true <-> 0.2 <= pii_score dlp) /\
  (PolicyEngine.secrets_detected dlp = true <-> 0.2 <= secret_leakage_score dlp) /\
  (PolicyEngine.high_secret_risk dlp = true <-> 0.4 <= secret_leakage_score dlp) /\
  (forall prompt,
     Redactor.blocked (Redactor._basic_redact prompt dlp) = true <->
     0.8 <= pii_score dlp \/ 0.8 <= secret_leakage_score dlp).
Proof.
  assert (U2 : 0.2 <= Float.lit 0.2) by (vm_compute; discriminate).
  assert (U4 : 0.4 <= Float.lit 0.4) by (vm_compute; discriminate).
  assert (U8 : 0.8 <= Float.lit 0.8) by (vm_compute; discriminate).
  pose proof (FloatFacts.geb_lit_exact 0.2 (pii_score dlp)
                ltac:(discriminate) U2 pii_is_float) as P2.
  pose proof (FloatFacts.geb_lit_exact 0.2 (secret_leakage_score dlp)
                ltac:(discriminate) U2 secret_is_float) as S2.
  pose proof (FloatFacts.geb_lit_exact 0.4 (secret_leakage_score dlp)
                ltac:(discriminate) U4 secret_is_float) as S4.
  pose proof (FloatFacts.geb_lit_exact 0.8 (pii_score dlp)
                ltac:(discriminate) U8 pii_is_float) as P8.
  pose proof (FloatFacts.geb_lit_exact 0.8 (secret_leakage_score dlp)
                ltac:(discriminate) U8 secret_is_float) as S8.
  split; [exact P2 |]. split; [exact S2 |]. split; [exact S4 |].
  intros prompt. rewrite <- P8, <- S8.
  unfold Redactor._basic_redact; cbn [Redactor.blocked].
  apply orb_true_iff.
Qed.

End Thresholds.

(** From here on [++] is the concatenation of strings unless marked. *)
Local Open Scope string_scope.

(* ================================================================== *)
(** * Host patterns *)
(* ================================================================== *)

Module ReFacts.
Import Re Hosts.

Lemma try_down_sound (f : nat -> option nat) (lo k r : nat) :
  try_down f lo k = Some r -> exists j, (lo <= j <= k)%nat /\ f j = Some r.
Proof.
  induction k as [| k IH]; simpl.
  - destruct (Nat.ltb_spec 0 lo); [discriminate |].
    destruct (f 0%nat) eqn:F; [| discriminate].
    intros E; injection E as <-. exists 0%nat. split; [lia | exact F].
  - destruct (Nat.ltb_spec (S k) lo); [discriminate |].
    destruct (f (S k)) eqn:F.
    + intros E; injection E as <-. exists (S k). split; [lia | exact F].
    + intros E. destruct (IH E) as (j & B & Fj). exists j. split; [lia | exact Fj].
Qed.

Lemma try_down_complete (f : nat -> option nat) (lo k j : nat) :
  (lo <= j <= k)%nat -> f j <> None -> try_down f lo k <> None.
Proof.
  intros B Fj. induction k as [| k IH]; simpl.
  - assert (j = 0)%nat by lia; subst j.
    destruct (Nat.ltb_spec 0 lo); [lia |].
    destruct (f 0%nat); [discriminate | contradiction].
  - destruct (Nat.ltb_spec (S k) lo); [lia |].
    destruct (f (S k)) eqn:F; [discriminate |].
    apply IH. destruct (Nat.eq_dec j (S k)); [subst j; contradiction | lia].
Qed.

Lemma span_zero (c : cls) (s : string) : span c (Some 0%nat) s = 0%nat.
Proof. destruct s; reflexivity. Qed.

(** A class matched exactly once. *)
Lemma match_here_one (c : cls) (r : regex) (prev : option ascii) (s : string) :
  match_here (one c :: r) prev s =
  match s with
  | String x s' => if c x then option_map S (match_here r (Some x) s') else None
  | EmptyString => None
  end.
Proof.
  unfold one. simpl match_here. destruct s as [| x s']; simpl; [reflexivity |].
  destruct (c x); simpl; [| reflexivity].
  rewrite span_zero. simpl.
  destruct (match_here r (Some x) s'); reflexivity.
Qed.

Lemma drop_app (p t : string) : drop (String.length p) (p ++ t) = t.
Proof. induction p; simpl; [destruct t; reflexivity | assumption]. Qed.

Lemma span_app (c : cls) (p t : string) :
  all_in c p = true -> (String.length p <= span c None (p ++ t))%nat.
Proof.
  induction p as [| x p IH]; simpl; [lia |].
  intros H. apply andb_true_iff in H as [Hx Hp]. rewrite Hx. simpl.
  specialize (IH Hp). lia.
Qed.

Lemma span_split (c : cls) (s : string) (j : nat) :
  (j <= span c None s)%nat ->
  exists p, s = p ++ drop j s /\ all_in c p = true.
Proof.
  revert s. induction j as [| j IH]; intros s H.
  - exists EmptyString. split; [destruct s; reflexivity | reflexivity].
  - destruct s as [| x s']; simpl in H; [lia |].
    destruct (c x) eqn:Hx; [| lia]. simpl in H.
    destruct (IH s') as (p & E & A); [lia |].
    exists (String x p). simpl. split; [f_equal; exact E |].
    rewrite Hx. exact A.
Qed.

(** The literal part of a host pattern: a word under IGNORECASE up to [$]. *)
Lemma match_here_word_i_eol (w s : string) (prev : option ascii) :
  match_here (lit_i w ++ [Eol])%list prev s <> None <->
  exists b t, s = b ++ t /\ Py.lower b = Py.lower w /\ at_eol t = true.
Proof.
  revert s prev. induction w as [| c w IH]; intros s prev.
  - simpl. split.
    + intros H. exists EmptyString, s. repeat split.
      destruct (at_eol s); [reflexivity | contradiction].
    + intros (b & t & -> & L & E). destruct b; [| discriminate].
      simpl. rewrite E. discriminate.
  - change (lit_i (String c w) ++ [Eol])%list
      with (one (chr_i c) :: (lit_i w ++ [Eol])%list).
    rewrite match_here_one. split.
    + destruct s as [| x s']; [contradiction |].
      destruct (chr_i c x) eqn:C; [| contradiction].
      intros H.
      assert (H' : match_here (lit_i w ++ [Eol])%list (Some x) s' <> None).
      { destruct (match_here (lit_i w ++ [Eol])%list (Some x) s'); [discriminate |].
        contradiction. }
      apply IH in H' as (b & t & -> & L & E).
      exists (String x b), t. repeat split; [| exact E].
      simpl. rewrite L. f_equal.
      unfold chr_i in C. apply Ascii.eqb_eq in C. congruence.
    + intros (b & t & -> & L & E).
      destruct b as [| x b]; [discriminate |]. simpl in L |- *.
      injection L as Lx Lb.
      unfold chr_i. rewrite Lx, Ascii.eqb_refl.
      assert (H : match_here (lit_i w ++ [Eol])%list (Some x) (b ++ t) <> None).
      { apply IH. exists b, t. repeat split; assumption. }
      destruct (match_here (lit_i w ++ [Eol])%list (Some x) (b ++ t));
        [discriminate | contradiction].
Qed.

End ReFacts.

Section WildcardFacts.
Import Re Fingerprinter ReFacts Hosts.

Lemma wildcard_atoms_star_free (base : string) :
  all_in not_star base = true ->
  map wildcard_atom (list_ascii_of_string base) = lit_i base.
Proof.
  induction base as [| c base IH]; simpl; [reflexivity |].
  intros H. apply andb_true_iff in H as [Hc Hb].
  unfold wildcard_atom at 1. unfold not_star in Hc.
  destruct (Ascii.eqb c "*"); [discriminate |].
  unfold lit_i, word_i in *. simpl. f_equal. apply IH, Hb.
Qed.

Lemma list_ascii_app (a b : string) :
  list_ascii_of_string (a ++ b) =
  (list_ascii_of_string a ++ list_ascii_of_string b)%list.
Proof. induction a; simpl; [reflexivity | f_equal; assumption]. Qed.

(** A literal word under IGNORECASE, then the rest of the pattern. *)
Lemma match_here_word_i_then (w : string) (r : regex) (P : string -> Prop) :
  (forall prev s, match_here r prev s <> None <-> P s) ->
  forall prev s,
    match_here (lit_i w ++ r)%list prev s <> None <->
    exists a s', s = a ++ s' /\ Py.lower a = Py.lower w /\ P s'.
Proof.
  intros R. induction w as [| c w IH]; intros prev s.
  - simpl. rewrite R. split.
    + intros H. exists EmptyString, s. auto.
    + intros (a & s' & -> & L & H). destruct a; [exact H | discriminate].
  - change (lit_i (String c w) ++ r)%list
      with (one (chr_i c) :: (lit_i w ++ r))%list.
    rewrite match_here_one. split.
    + destruct s as [| x s']; [contradiction |].
      destruct (chr_i c x) eqn:C; [| contradiction].
      intros H.
      assert (H' : match_here (lit_i w ++ r)%list (Some x) s' <> None).
      { destruct (match_here (lit_i w ++ r)%list (Some x) s');
          [discriminate | contradiction]. }
      apply IH in H' as (a & s'' & -> & L & H').
      exists (String x a), s''. repeat split; [| exact H'].
      simpl. rewrite L. f_equal.
      unfold chr_i in C. apply Ascii.eqb_eq in C. congruence.
    + intros (a & s' & -> & L & H).
      destruct a as [| x a]; [discriminate |]. simpl in L |- *.
      injection L as Lx La.
      unfold chr_i. rewrite Lx, Ascii.eqb_refl.
      assert (M : match_here (lit_i w ++ r)%list (Some x) (a ++ s') <> None).
      { apply IH. exists a, s'. auto. }
      destruct (match_here (lit_i w ++ r)%list (Some x) (a ++ s'));
        [discriminate | contradiction].
Qed.

(** The wildcard, then a literal word up to [$]. *)
Lemma match_here_star_word_i_eol (post : string) (prev : option ascii)
    (s : string) :
  match_here (star dot :: lit_i post ++ [Eol])%list prev s <> None <->
  exists p b t,
    s = p ++ b ++ t /\ all_in dot p = true /\
    Py.lower b = Py.lower post /\ at_eol t = true.
Proof.
  unfold star. simpl match_here.
  set (f := fun k : nat =>
              option_map (Nat.add k)
                (match_here (lit_i post ++ [Eol])%list (before k prev s)
                   (drop k s))).
  split.
  - intros H.
    destruct (try_down f 0 (span dot None s)) as [r |] eqn:T;
      [| contradiction].
    apply try_down_sound in T as (j & B & Fj).
    destruct (span_split dot s j) as (p & E & A); [lia |].
    assert (M : match_here (lit_i post ++ [Eol])%list (before j prev s)
                  (drop j s) <> None).
    { unfold f in Fj.
      destruct (match_here (lit_i post ++ [Eol])%list (before j prev s)
                  (drop j s)); discriminate. }
    apply match_here_word_i_eol in M as (b & t & D & L & Et).
    exists p, b, t. repeat split; try assumption.
    rewrite E at 1. rewrite D. reflexivity.
  - intros (p & b & t & -> & A & L & Et).
    apply (try_down_complete f 0 _ (String.length p)).
    + split; [lia | apply span_app, A].
    + unfold f. rewrite drop_app.
      assert (M : match_here (lit_i post ++ [Eol])%list
                    (before (String.length p) prev (p ++ b ++ t)) (b ++ t)
                  <> None).
      { apply match_here_word_i_eol. exists b, t. repeat split; assumption. }
      destruct (match_here (lit_i post ++ [Eol])%list
                  (before (String.length p) prev (p ++ b ++ t)) (b ++ t));
        [discriminate | contradiction].
Qed.

(** C6, as the code has it.  On ASCII text, a host pattern with one
    wildcard between two literal parts (either may be empty) matches exactly
    the hosts made of the first part, any run of characters other than a
    newline, and the second part, case apart (and a final newline apart,
    which [$] lets through).  The run that stands for the wildcard may be
    empty, one label or several labels. *)
Theorem wildcard_matches_any_run (pre post host : string) :
  is_ascii pre = true -> is_ascii post = true -> is_ascii host = true ->
  all_in not_star pre = true -> all_in not_star post = true ->
  (matches (_wildcard_to_regex (pre ++ String "*" post)) host = true <->
   exists a p b t,
     host = a ++ p ++ b ++ t /\
     Py.lower a = Py.lower pre /\ all_in dot p = true /\
     Py.lower b = Py.lower post /\ at_eol t = true).
Proof.
  intros _ _ _ SFpre SFpost. unfold matches, _wildcard_to_regex.
  rewrite list_ascii_app. simpl list_ascii_of_string.
  rewrite map_app. simpl map.
  rewrite (wildcard_atoms_star_free pre SFpre).
  rewrite (wildcard_atoms_star_free post SFpost).
  unfold wildcard_atom. simpl (Ascii.eqb "*" "*"). cbv iota.
  rewrite <- app_assoc. simpl match_here.
  change (lit_i pre ++ (star dot :: lit_i post) ++ [Eol])%list
    with (lit_i pre ++ (star dot :: lit_i post ++ [Eol]))%list.
  pose proof (match_here_word_i_then pre
                (star dot :: lit_i post ++ [Eol])%list
                (fun s => exists p b t,
                     s = p ++ b ++ t /\ all_in dot p = true /\
                     Py.lower b = Py.lower post /\ at_eol t = true)
                (match_here_star_word_i_eol post) None host) as M.
  destruct (match_here (lit_i pre ++ star dot :: lit_i post ++ [Eol])%list
              None host).
  - split; [intros _ | reflexivity].
    destruct (proj1 M ltac:(discriminate)) as (a & s' & -> & L & p & b & t & -> & H).
    exists a, p, b, t. tauto.
  - split; [discriminate |].
    intros (a & p & b & t & -> & L & H). exfalso.
    apply (proj2 M); [| reflexivity].
    exists a, (p ++ b ++ t). repeat split; [exact L |].
    exists p, b, t. tauto.
Qed.

End WildcardFacts.

(** The patterns of the catalog that hold a wildcard: one leading, one in
    the middle. *)
Lemma catalog_wildcards :
  filter (fun d => negb (Hosts.all_in Hosts.not_star d))
    (flat_map (fun '(_, domains, _, _, _, _) => domains) Fingerprinter.catalog)
  = ["*.openai.azure.com"; "bedrock-runtime.*.amazonaws.com"].
Proof. vm_compute. reflexivity. Qed.

(** The two wildcard patterns of the catalog, each at a host of one label
    in the place of the wildcard. *)
Lemma wildcard_matches_any_run_witness :
  (Re.matches (Fingerprinter._wildcard_to_regex "*.openai.azure.com")
     "eu.openai.azure.com" = true <->
   exists a p b t,
     "eu.openai.azure.com" = a ++ p ++ b ++ t /\
     Py.lower a = Py.lower EmptyString /\ Hosts.all_in Re.dot p = true /\
     Py.lower b = Py.lower ".openai.azure.com" /\ Re.at_eol t = true) /\
  (Re.matches (Fingerprinter._wildcard_to_regex "bedrock-runtime.*.amazonaws.com")
     "bedrock-runtime.us-east-1.amazonaws.com" = true <->
   exists a p b t,
     "bedrock-runtime.us-east-1.amazonaws.com" = a ++ p ++ b ++ t /\
     Py.lower a = Py.lower "bedrock-runtime." /\ Hosts.all_in Re.dot p = true /\
     Py.lower b = Py.lower ".amazonaws.com" /\ Re.at_eol t = true).
Proof.
  split.
  - apply (wildcard_matches_any_run EmptyString ".openai.azure.com"
             "eu.openai.azure.com"); reflexivity.
  - apply (wildcard_matches_any_run "bedrock-runtime." ".amazonaws.com"
             "bedrock-runtime.us-east-1.amazonaws.com"); reflexivity.
Defined.

(** There is no restriction to one label: the wildcard pattern of the
    catalog matches a host with two labels before the base domain, and
    [fingerprint] reports Azure OpenAI for it. *)
Lemma wildcard_matches_two_labels :
  Re.matches (Fingerprinter._wildcard_to_regex "*.openai.azure.com")
    "a.b.openai.azure.com" = true /\
  option_map Fingerprinter.service_name
    (Fingerprinter.fingerprint
       (Fingerprinter.mkRequestContext "a.b.openai.azure.com" "/" "POST" []
          None None None)) = Some "Azure OpenAI".
Proof. vm_compute. split; reflexivity. Qed.

(* ================================================================== *)
(** * The scores of the scanner *)
(* ================================================================== *)

Module ScoreFacts.
Import Float FloatFacts.
Local Open Scope Q_scope.

Lemma of_int_ge (k n : Z) :
  (0 <= k <= n)%Z -> of_int k = inject_Z k -> inject_Z k <= of_int n.
Proof.
  intros B E. rewrite <- E. unfold of_int. apply round53_mono.
  - change 0 with (inject_Z 0). rewrite <- Zle_Qle. lia.
  - rewrite <- Zle_Qle. lia.
Qed.

Lemma min_one_of_ge (x : Q) : 1 <= x -> Float.min 1 x = 1.
Proof.
  intros H. unfold Float.min, ltb.
  destruct (Qle_bool 1 x) eqn:E; [reflexivity |].
  apply Qle_bool_iff in H. congruence.
Qed.

Lemma Qmin_one_of_ge (x : Q) : 1 <= x -> Qmin 1 x = 1.
Proof.
  intros H. unfold Qmin, GenericMinMax.gmin.
  destruct (Qcompare_spec 1 x); try reflexivity. lra.
Qed.

(** [round(min(1.0, n * 0.2), 2)] is the float nearest to [min(1, 0.2 n)]. *)
Lemma pii_score_decimal (n : nat) :
  round2 (Float.min 1 (mul (of_int (Z.of_nat n)) (lit 0.2))) =
  lit (Qmin 1 (0.2 * inject_Z (Z.of_nat n))).
Proof.
  do 5 (destruct n as [| n]; [vm_compute; reflexivity |]).
  assert (G : inject_Z 5 <= of_int (Z.of_nat (S (S (S (S (S n))))))).
  { apply of_int_ge; [lia | vm_compute; reflexivity]. }
  assert (P : 0 < lit 0.2) by (vm_compute; reflexivity).
  assert (X : 1 <= mul (of_int (Z.of_nat (S (S (S (S (S n))))))) (lit 0.2)).
  { replace 1 with (round53 (inject_Z 5 * lit 0.2)) by (vm_compute; reflexivity).
    apply round53_mono.
    - apply Qmult_le_0_compat; [discriminate | lra].
    - apply Qmult_le_compat_r; [exact G | lra]. }
  rewrite (min_one_of_ge _ X).
  rewrite Qmin_one_of_ge; [vm_compute; reflexivity |].
  assert (inject_Z 5 <= inject_Z (Z.of_nat (S (S (S (S (S n))))))).
  { rewrite <- Zle_Qle. lia. }
  change (inject_Z 5) with 5 in *. lra.
Qed.

(** The same for [round(min(1.0, n * 0.25 + bonus), 2)]. *)
Lemma secret_score_decimal (n : nat) (high : bool) :
  round2 (Float.min 1
            (add (mul (of_int (Z.of_nat n)) (lit 0.25))
                 (if high then lit 0.3 else of_int 0))) =
  lit (Qmin 1 (0.25 * inject_Z (Z.of_nat n) + (if high then 0.3 else 0))).
Proof.
  do 4 (destruct n as [| n]; [destruct high; vm_compute; reflexivity |]).
  set (m := Z.of_nat (S (S (S (S n))))).
  assert (G : inject_Z 4 <= of_int m).
  { apply of_int_ge; [lia | vm_compute; reflexivity]. }
  assert (M : 1 <= mul (of_int m) (lit 0.25)).
  { replace 1 with (round53 (inject_Z 4 * lit 0.25)) by (vm_compute; reflexivity).
    apply round53_mono; [vm_compute; discriminate |].
    apply Qmult_le_compat_r; [exact G | vm_compute; discriminate]. }
  assert (B : 0 <= (if high then lit 0.3 else of_int 0)).
  { destruct high; vm_compute; discriminate. }
  assert (B' : 0 <= (if high then 0.3 else 0)).
  { destruct high; vm_compute; discriminate. }
  assert (X : 1 <= add (mul (of_int m) (lit 0.25))
                       (if high then lit 0.3 else of_int 0)).
  { replace 1 with (round53 1) by (vm_compute; reflexivity).
    apply round53_mono; [discriminate | lra]. }
  rewrite (min_one_of_ge _ X).
  rewrite Qmin_one_of_ge; [vm_compute; reflexivity |].
  assert (inject_Z 4 <= inject_Z m) by (rewrite <- Zle_Qle; lia).
  change (inject_Z 4) with 4 in *. lra.
Qed.

(** The float nearest to a number of [0, 1] is in [0, 1]. *)
Lemma lit_unit_interval (q : Q) : 0 <= q -> 0 <= lit (Qmin 1 q) <= 1.
Proof.
  intros H. unfold lit. split.
  - apply round53_nonneg. apply Q.min_glb; [discriminate | exact H].
  - replace 1 with (round53 1) at 2 by (vm_compute; reflexivity).
    apply round53_mono; [| apply Q.le_min_l].
    apply Q.min_glb; [discriminate | exact H].
Qed.

End ScoreFacts.

Section AnalyzeFacts.
Import DLPEngine ScoreFacts Spans.
Local Open Scope Q_scope.

Variable entropy_sum : string -> Q.
Variable nlp : option (string -> list Entity).

Lemma high_entropy_is_secret (l : list SensitiveSegment) :
  existsb is_high_entropy (filter is_secret_hit l) = existsb is_high_entropy l.
Proof.
  induction l as [| h l IH]; simpl; [reflexivity |].
  unfold is_secret_hit at 1, is_high_entropy at 2.
  destruct (String.eqb (label h) "high_entropy") eqn:E.
  - rewrite orb_true_r. simpl. unfold is_high_entropy at 1. rewrite E. reflexivity.
  - rewrite orb_false_r. simpl.
    destruct (in_keys (label h) SECRET_REGEXES); [| exact IH].
    simpl. unfold is_high_entropy at 1. rewrite E. exact IH.
Qed.

Lemma catalog_secrets_without_entropy (l : list SensitiveSegment) :
  existsb is_high_entropy l = false ->
  filter is_secret_hit l = filter is_catalog_secret l.
Proof.
  induction l as [| h l IH]; simpl; [reflexivity |].
  intros H. apply orb_false_iff in H as [Hh Hl].
  unfold is_secret_hit at 1, is_catalog_secret at 1.
  unfold is_high_entropy in Hh. rewrite Hh, orb_false_r.
  rewrite (IH Hl). reflexivity.
Qed.

(** C5. The two scores of [analyze] are the rounded minima the source
    computes from the number of PII-class segments, the number of
    secret-class segments and the presence of a [high_entropy] segment; as
    floats they are the ones nearest to [min(1, 0.2 n)] and
    [min(1, 0.25 n + 0.3 or 0)]; both lie in [0, 1]; and with exactly one
    match of the secret catalog and no [high_entropy] segment the secret
    score is 0.25. *)
Theorem analyze_scores (prompt : string) :
  let r := analyze entropy_sum nlp prompt in
  let segments := sensitive_segments r in
  let pii := Z.of_nat (List.length (filter is_pii_hit segments)) in
  let secret := Z.of_nat (List.length (filter is_secret_hit segments)) in
  let high := existsb is_high_entropy segments in
  (pii_score r =
   Float.round2 (Float.min 1 (Float.mul (Float.of_int pii) (Float.lit 0.2))) /\
   secret_leakage_score r =
   Float.round2
     (Float.min 1
        (Float.add (Float.mul (Float.of_int secret) (Float.lit 0.25))
           (if high then Float.lit 0.3 else Float.of_int 0)))) /\
  (pii_score r = Float.lit (Qmin 1 (0.2 * inject_Z pii)) /\
   secret_leakage_score r =
   Float.lit (Qmin 1 (0.25 * inject_Z secret + (if high then 0.3 else 0)))) /\
  (0 <= pii_score r <= 1 /\ 0 <= secret_leakage_score r <= 1) /\
  (List.length (filter is_catalog_secret segments) = 1%nat -> high = false ->
   secret_leakage_score r == 0.25).
Proof.
  cbv zeta.
  set (segments := sensitive_segments (analyze entropy_sum nlp prompt)).
  assert (P : pii_score (analyze entropy_sum nlp prompt) =
              Float.round2 (pii_score_of (filter is_pii_hit segments)))
    by reflexivity.
  assert (S : secret_leakage_score (analyze entropy_sum nlp prompt) =
              Float.round2 (secret_score_of (filter is_secret_hit segments)))
    by reflexivity.
  unfold pii_score_of in P. unfold secret_score_of in S.
  rewrite high_entropy_is_secret in S.
  assert (Np : 0 <= 0.2 * inject_Z (Z.of_nat (List.length (filter is_pii_hit segments)))).
  { apply Qmult_le_0_compat; [discriminate |].
    change 0 with (inject_Z 0). rewrite <- Zle_Qle. lia. }
  assert (Ns : 0 <= 0.25 * inject_Z (Z.of_nat (List.length (filter is_secret_hit segments)))
                    + (if existsb is_high_entropy segments then 0.3 else 0)).
  { assert (0 <= (if existsb is_high_entropy segments then 0.3 else 0))
      by (destruct (existsb is_high_entropy segments); discriminate).
    assert (0 <= 0.25 * inject_Z (Z.of_nat (List.length (filter is_secret_hit segments)))).
    { apply Qmult_le_0_compat; [discriminate |].
      change 0 with (inject_Z 0). rewrite <- Zle_Qle. lia. }
    lra. }
  split; [split; assumption |].
  rewrite P, S, pii_score_decimal, secret_score_decimal.
  split; [split; reflexivity |].
  split; [split; apply lit_unit_interval; assumption |].
  intros One High. rewrite High.
  rewrite (catalog_secrets_without_entropy segments High), One.
  vm_compute. reflexivity.
Qed.

(** The scores [analyze] returns are floats. *)
Lemma analyze_scores_are_floats (prompt : string) :
  Float.is_float (pii_score (analyze entropy_sum nlp prompt)) /\
  Float.is_float (secret_leakage_score (analyze entropy_sum nlp prompt)).
Proof.
  split; apply FloatFacts.round2_is_float.
  - unfold pii_score_of, Float.min.
    destruct (Float.ltb _ 1); [| discriminate].
    apply FloatFacts.round53_nonneg.
    apply Qmult_le_0_compat; [| vm_compute; discriminate].
    apply FloatFacts.round53_nonneg.
    change 0 with (inject_Z 0). rewrite <- Zle_Qle. lia.
  - unfold secret_score_of, Float.min.
    destruct (Float.ltb _ 1); [| discriminate].
    apply FloatFacts.round53_nonneg.
    assert (0 <= Float.mul
                   (Float.of_int
                      (Z.of_nat
                         (List.length
                            (filter is_secret_hit
                               (_scan_regexes prompt ++
                                _scan_entropy entropy_sum prompt ++
                                _scan_spacy nlp prompt)%list))))
                   (Float.lit 0.25)).
    { apply FloatFacts.round53_nonneg.
      apply Qmult_le_0_compat; [| vm_compute; discriminate].
      apply FloatFacts.round53_nonneg.
      change 0 with (inject_Z 0). rewrite <- Zle_Qle. lia. }
    assert (0 <= (if existsb is_high_entropy
                       (filter is_secret_hit
                          (_scan_regexes prompt ++
                           _scan_entropy entropy_sum prompt ++
                           _scan_spacy nlp prompt)%list)
                  then Float.lit 0.3 else Float.of_int 0)).
    { destruct (existsb _ _); vm_compute; discriminate. }
    lra.
Qed.

End AnalyzeFacts.

(** A text with one match of the secret catalog and no long token. *)
Lemma analyze_scores_witness :
  (DLPEngine.secret_leakage_score
     (DLPEngine.analyze (fun _ => 0%Q) None "key=aaaaaaaaaaaa") == 0.25)%Q.
Proof.
  apply (analyze_scores (fun _ => 0%Q) None "key=aaaaaaaaaaaa");
    vm_compute; reflexivity.
Defined.

(* ================================================================== *)
(** * Overlapping segments *)
(* ================================================================== *)

Module FinditerFacts.
Import Re Spans.

Lemma chain_weaken (lo lo' : nat) (l : list (nat * nat)) :
  (lo' <= lo)%nat -> chain lo l -> chain lo' l.
Proof. destruct l as [| [a b] l]; simpl; [trivial | intuition lia]. Qed.

Lemma finditer_from_chain (r : regex) (s : string) :
  forall prev pos skip, chain (pos + skip) (finditer_from r prev s pos skip).
Proof.
  induction s as [| x s IH]; intros prev pos skip.
  - destruct skip; simpl; [| trivial].
    destruct (match_here r prev EmptyString); simpl; [lia | trivial].
  - destruct skip as [| k]; simpl.
    + destruct (match_here r prev (String x s)) as [n |]; simpl.
      * split; [lia |]. split; [lia |].
        apply (chain_weaken (S pos + Nat.pred n)); [lia | apply IH].
      * apply (chain_weaken (S pos + 0)); [lia | apply IH].
    + replace (pos + S k)%nat with (S pos + k)%nat by lia. apply IH.
Qed.

Lemma chain_all_after (lo : nat) (l : list (nat * nat)) :
  chain lo l -> Forall (fun span => (lo <= fst span)%nat) l.
Proof.
  revert lo. induction l as [| [a b] l IH]; intros lo H; constructor.
  - simpl in *. lia.
  - simpl in H. destruct H as (A & B & C).
    apply IH in C. eapply Forall_impl; [| exact C]. simpl. intros; lia.
Qed.

End FinditerFacts.

Section OverlapFacts.
Import DLPEngine FinditerFacts Spans.

Lemma hits_sorted (text : string) (lbl : string) (lo : nat)
    (spans : list (nat * nat)) :
  chain lo spans ->
  StronglySorted ends_before
    (map (fun span =>
            mkSegment lbl (Py.slice text (fst span) (snd span))
              (Z.of_nat (fst span)) (Z.of_nat (snd span))) spans).
Proof.
  revert lo. induction spans as [| [a b] spans IH]; intros lo H; simpl.
  - constructor.
  - destruct H as (A & B & C). constructor; [apply (IH b), C |].
    apply chain_all_after in C. apply Forall_map.
    eapply Forall_impl; [| exact C].
    intros [a' b'] H. unfold ends_before. simpl in *. lia.
Qed.

(** C8, as the code has it.  The segments [_scan_regexes] finds for one
    entry of a catalog never overlap: in the order found, each ends at or
    before the start of every later one. *)
Theorem matches_of_one_pattern_do_not_overlap (text : string)
    (entry : string * Re.regex) :
  StronglySorted ends_before (hits_of text entry).
Proof.
  unfold hits_of. apply (hits_sorted text (fst entry) (0 + 0)).
  apply finditer_from_chain.
Qed.

End OverlapFacts.

(** Across patterns segments do overlap: twelve digits in a row are a phone
    number and a Medicare number at once, and [analyze] returns both
    segments over the same span. *)
Lemma analyze_segments_overlap :
  let r := DLPEngine.analyze (fun _ => 0%Q) None "123456789012" in
  exists a b,
    DLPEngine.sensitive_segments r = [a; b] /\
    DLPEngine.label a = "phone" /\ DLPEngine.label b = "medicare" /\
    a <> b /\ Spans.overlap a b.
Proof.
  eexists; eexists. split; [vm_compute; reflexivity |].
  repeat split; try discriminate; unfold Spans.ends_before; simpl; lia.
Qed.

(* ================================================================== *)
(** * The selection of the fingerprinter *)
(* ================================================================== *)

Module SelectionFacts.
Local Open Scope Q_scope.

Section Head.
Context {A : Type} (key : A -> Q).

(** The head of [sorted(l, key, reverse=True)] is the first element of [l]
    whose key is the greatest. *)
Lemma sorted_desc_head (l : list A) (x : A) (rest : list A) :
  Py.sorted_desc Float.ltb key l = x :: rest ->
  exists pre post,
    l = (pre ++ x :: post)%list /\
    Forall (fun y => key y < key x) pre /\
    Forall (fun y => key y <= key x) post.
Proof.
  revert x rest. induction l as [| a l IH]; intros x rest; simpl;
    [discriminate |].
  destruct (Py.sorted_desc Float.ltb key l) as [| h t] eqn:S; simpl.
  - intros E; injection E as <- <-.
    destruct l as [| b l'].
    + exists [], []. repeat split; constructor.
    + exfalso. simpl in S.
      destruct (Py.sorted_desc Float.ltb key l'); simpl in S;
        [discriminate |].
      destruct (Float.ltb (key b) (key a0)); discriminate.
  - destruct (IH h t eq_refl) as (pre & post & -> & Pre & Post).
    unfold Float.ltb at 1.
    destruct (Qle_bool (key h) (key a)) eqn:C; simpl.
    + intros E; injection E as <- <-.
      apply Qle_bool_iff in C.
      exists [], (pre ++ h :: post)%list. repeat split; [constructor |].
      apply Forall_app. split.
      * eapply Forall_impl; [| exact Pre]. simpl. intros; lra.
      * constructor; [exact C |].
        eapply Forall_impl; [| exact Post]. simpl. intros; lra.
    + intros E; injection E as <- <-.
      assert (key a < key h).
      { apply Qnot_le_lt. intros L. apply Qle_bool_iff in L. congruence. }
      exists (a :: pre), post. repeat split; [| exact Post].
      constructor; assumption.
Qed.

Lemma sorted_desc_nil (l : list A) :
  Py.sorted_desc Float.ltb key l = [] -> l = [].
Proof.
  destruct l as [| a l]; [reflexivity |]. simpl.
  destruct (Py.sorted_desc Float.ltb key l); simpl; [discriminate |].
  destruct (Float.ltb (key a) (key a0)); discriminate.
Qed.

End Head.
End SelectionFacts.

Section FingerprintFacts.
Import Fingerprinter SelectionFacts.
Local Open Scope Q_scope.

Variable ctx : RequestContext.


Lemma matched_of_cons (rule : Rule) (rs : list Rule) :
  matched_of (rule :: rs) ctx =
  ((if Hosts.qualifies ctx rule
    then [(rule, Hosts.score ctx rule, snd (score_rule ctx rule))] else [])
   ++ matched_of rs ctx)%list.
Proof.
  unfold matched_of, Hosts.qualifies, Hosts.score. cbn [flat_map].
  destruct (score_rule ctx rule) as [s sig]. reflexivity.
Qed.

Lemma matched_of_split (rs : list Rule) (x : Rule * Q * list string)
    (pre' post' : list (Rule * Q * list string)) :
  matched_of rs ctx = (pre' ++ x :: post')%list ->
  exists pre rule post,
    rs = (pre ++ rule :: post)%list /\ Hosts.qualifies ctx rule = true /\
    x = (rule, Hosts.score ctx rule, snd (score_rule ctx rule)) /\
    matched_of pre ctx = pre' /\ matched_of post ctx = post'.
Proof.
  revert pre'. induction rs as [| a rs IH]; intros pre' E.
  - destruct pre'; discriminate.
  - rewrite matched_of_cons in E. destruct (Hosts.qualifies ctx a) eqn:Q; simpl in E.
    + destruct pre' as [| y pre']; simpl in E.
      * injection E as <- E. exists [], a, rs. repeat split; assumption.
      * injection E as <- E.
        destruct (IH pre' E) as (pre & rule & post & -> & Qr & -> & P1 & P2).
        exists (a :: pre), rule, post. repeat split; try assumption.
        rewrite matched_of_cons, Q, P1. reflexivity.
    + destruct (IH pre' E) as (pre & rule & post & -> & Qr & -> & P1 & P2).
      exists (a :: pre), rule, post. repeat split; try assumption.
      rewrite matched_of_cons, Q, P1. reflexivity.
Qed.

Lemma matched_of_forall (P : Q -> Prop) (rs : list Rule) :
  Forall (fun y => P (snd (fst y))) (matched_of rs ctx) ->
  Forall (fun rule => Hosts.qualifies ctx rule = true -> P (Hosts.score ctx rule)) rs.
Proof.
  induction rs as [| a rs IH]; intros H; constructor.
  - intros Q. rewrite matched_of_cons, Q in H. simpl in H.
    inversion H; subst. assumption.
  - apply IH. rewrite matched_of_cons in H.
    apply Forall_app in H. apply H.
Qed.

Lemma matched_of_nil (rs : list Rule) :
  matched_of rs ctx = [] -> Forall (fun rule => Hosts.qualifies ctx rule = false) rs.
Proof.
  induction rs as [| a rs IH]; intros H; constructor;
    rewrite matched_of_cons in H; destruct (Hosts.qualifies ctx a); simpl in H;
    try discriminate; auto.
Qed.

(** The selection of [fingerprint]: no result when no rule reaches 0.45 in
    float arithmetic; otherwise the first rule of the catalog among those of
    the greatest score. *)
Lemma fingerprint_selects_first_best (rs : list Rule) :
  match fingerprint_with rs ctx with
  | None => Forall (fun rule => Hosts.qualifies ctx rule = false) rs
  | Some r =>
      exists pre rule post,
        rs = (pre ++ rule :: post)%list /\ Hosts.qualifies ctx rule = true /\
        r = mkFingerprintResult
              (rule_service_name rule) (rule_model_type rule)
              (rule_api_version rule) (rule_risk_level rule)
              (Float.round2 (Hosts.score ctx rule)) (snd (score_rule ctx rule)) /\
        Forall (fun y => Hosts.qualifies ctx y = true -> Hosts.score ctx y < Hosts.score ctx rule) pre /\
        Forall (fun y => Hosts.qualifies ctx y = true -> Hosts.score ctx y <= Hosts.score ctx rule) post
  end.
Proof.
  unfold fingerprint_with.
  destruct (Py.sorted_desc Float.ltb (fun x => snd (fst x)) (matched_of rs ctx))
    as [| [[rule0 s0] sig0] t] eqn:S.
  - apply matched_of_nil. apply (sorted_desc_nil _ _ S).
  - apply sorted_desc_head in S as (pre' & post' & E & Pre & Post).
    apply matched_of_split in E as (pre & rule & post & -> & Qr & X & P1 & P2).
    injection X as -> -> ->.
    exists pre, rule, post. repeat split; try assumption.
    + apply (matched_of_forall (fun q => q < Hosts.score ctx rule)). rewrite P1. exact Pre.
    + apply (matched_of_forall (fun q => q <= Hosts.score ctx rule)). rewrite P2. exact Post.
Qed.

End FingerprintFacts.

(** C4, at a request on the threshold.  A request whose path and
    header are those of Anthropic, on a host no rule knows, has the
    cumulative score 0.3 + 0.15, which reaches the threshold 0.45; but the
    sum the code forms in binary floating point is 0.44999999999999996,
    below the float 0.45 (the kernel's hardware floats agree), so the rule
    does not qualify and [fingerprint] returns nothing. *)
#[warnings="-inexact-float"]
Theorem path_and_header_do_not_qualify :
  let ctx :=
    Fingerprinter.mkRequestContext "llm-gateway.internal" "/v1/messages" "POST"
      [("Anthropic-Version", "2023-06-01")] None None None in
  let s := Float.add (Float.add (Float.lit 0.0) (Float.lit 0.3)) (Float.lit 0.15) in
  map (fun rule => (Fingerprinter.rule_service_name rule,
                    Fingerprinter.score_rule ctx rule))
      (filter (fun rule => negb (Qeq_bool (Hosts.score ctx rule) 0))
              Fingerprinter.rules)
    = [("Anthropic", (s, ["path"; "header"]))] /\
  (0.45 <= 0.3 + 0.15)%Q /\
  Float.geb s (Float.lit 0.45) = false /\
  Float.of_prim (0.0 + 0.3 + 0.15)%float = Some s /\
  PrimFloat.leb 0.45 (0.0 + 0.3 + 0.15) = false /\
  Fingerprinter.fingerprint ctx = None.
Proof.
  vm_compute. repeat split; try reflexivity. discriminate.
Qed.

(* ================================================================== *)
(** * The orchestrator and the audit sink *)
(* ================================================================== *)

Section HandleFacts.
Import ProxyOrchestrator GovernanceLogger.

Variable entropy_sum : string -> Q.
Variable hash : string -> Z.
Variable sha256_hexdigest : string -> string.
Variable World : Type.
Variable time : World -> Q.
Variable append_text : string -> string -> World -> result World.
Variable path_exists : string -> World -> bool.
Variable json_dumps : GovernanceEvent -> string.
Variable csv_header : string.
Variable csv_row : GovernanceEvent -> string.

Let handle' :=
  handle entropy_sum hash sha256_hexdigest World time append_text path_exists
    json_dumps csv_header csv_row.
Let log' := log World append_text path_exists json_dumps csv_header csv_row.
Let build_event' := build_event entropy_sum hash sha256_hexdigest.

(** The event is built whatever the request: [evaluate] does not raise, and
    the action of the event is the action of the policy decision. *)
Lemma build_event_total (req : InterceptedRequest) (now : Q) :
  exists event decision,
    build_event' req now = Some event /\
    PolicyEngine.evaluate policy
      (Fingerprinter.fingerprint
         (Fingerprinter.mkRequestContext (host req) (path req) (method req)
            (headers req) (body req) None None))
      (DLPEngine.analyze entropy_sum None (prompt_of req)) = Some decision /\
    action event = PolicyEngine.action decision.
Proof.
  unfold build_event', build_event.
  destruct (evaluate_total policy
              (Fingerprinter.fingerprint
                 (Fingerprinter.mkRequestContext (host req) (path req)
                    (method req) (headers req) (body req) None None))
              (DLPEngine.analyze entropy_sum None (prompt_of req)))
    as [d E].
  rewrite E. eexists; exists d. repeat split.
Qed.

(** C2, as the code has it.  [handle] builds the event, whose action is
    the action of the policy decision, from the request alone and before it
    touches the sink.  When the append to the sink completes, [handle]
    returns that event; when the append raises, the exception reaches the
    caller and no event is returned. *)
Theorem handle_returns_the_event_unless_the_sink_raises
    (req : InterceptedRequest) (st : GovernanceLogger * World) :
  exists event decision,
    build_event' req (time (snd st)) = Some event /\
    PolicyEngine.evaluate policy
      (Fingerprinter.fingerprint
         (Fingerprinter.mkRequestContext (host req) (path req) (method req)
            (headers req) (body req) None None))
      (DLPEngine.analyze entropy_sum None (prompt_of req)) = Some decision /\
    action event = PolicyEngine.action decision /\
    match log' event st with
    | (Return _, st') => handle' req st = (Return event, st')
    | (Raise exn, st') => handle' req st = (Raise exn, st')
    end.
Proof.
  destruct (build_event_total req (time (snd st))) as (event & d & B & E & A).
  exists event, d. repeat split; try assumption.
  unfold handle', handle. fold build_event'. rewrite B.
  unfold bind, ret. fold log'.
  destruct (log' event st) as [[[] | exn] st']; reflexivity.
Qed.

End HandleFacts.

(** No event comes back when the sink fails: on a file system that refuses
    every write, [handle] raises and returns no event. *)
Lemma handle_raises_when_the_sink_raises :
  let req :=
    ProxyOrchestrator.mkInterceptedRequest "s1" "alice" "api.openai.com"
      "/v1/chat/completions" "POST" [("OpenAI-Organization", "demo")]
      (Some "hello") in
  let read_only : string -> string -> unit -> result unit :=
    fun _ _ _ => Raise "OSError" in
  let outcome :=
    ProxyOrchestrator.handle (fun _ => 0%Q) (fun _ => 0%Z) (fun _ => "00")
      unit (fun _ => 0%Q) read_only (fun _ _ => false)
      (fun _ => "{}") "header" (fun _ => "row") req
      (GovernanceLogger.new, tt) in
  fst outcome = Raise "OSError" /\
  forall event, fst outcome <> Return event.
Proof.
  vm_compute. split; [reflexivity | discriminate].
Qed.

(* ================================================================== *)
(** * The markers of the redact mode *)
(* ================================================================== *)

(** C7, at a prompt with a segment of either class.  [REDACTION_TOKENS] is keyed by
    the categories [pii] and [secret], but it is looked up with the label of
    the segment, which is the name of a pattern or of an entity: every such
    label falls to the default marker.  So the e-mail address and the API
    key of one prompt are replaced by the same marker. *)
Theorem redact_markers_ignore_the_category :
  let prompt := "bob@x.org key=aaaaaaaaaaaa" in
  let dlp := DLPEngine.analyze (fun _ => 0%Q) None prompt in
  map (fun l => Redactor.get Redactor.REDACTION_TOKENS l "[REDACTED]")
      (map fst DLPEngine.PII_REGEXES ++ DLPEngine.ENTITY_LABELS ++
       map fst DLPEngine.SECRET_REGEXES)%list
    = repeat "[REDACTED]" 11 /\
  map (fun h => (DLPEngine.label h, DLPEngine.start h, DLPEngine.end_ h,
                 Redactor.redaction_token h))
      (DLPEngine.sensitive_segments dlp)
    = [("email", 0%Z, 9%Z, "[REDACTED]");
       ("api_key", 10%Z, 26%Z, "[REDACTED]")] /\
  Redactor.redacted_text (Redactor._basic_redact prompt dlp)
    = Some "[REDACTED] [REDACTED]".
Proof. vm_compute. repeat split; reflexivity. Qed.
